(** * The CRP asset organizer (tools/organize_crp.py)

    A shallow embedding of [organize_crp_assets], [process_crp_folders],
    [main] and the script's entry guard, over an explicit file system.

    Conventions of the embedding:
    - a path is kept in split form (the list of its components below the
      root); [path_str] renders it the way the Python code sees it, and
      every string test of the source ([in], [endswith], [split]) is made
      on that rendering;
    - the file system is an ordered table from paths to nodes; the order
      of the table is the directory enumeration order of [os.listdir];
    - [json.load] is a library call: a regular file either holds a JSON
      document (with the value [json.load] returns) or other bytes;
    - JSON numbers are integers; a character is a code point below
      256, so a name with a character outside Latin-1 is not among the
      inputs of the model;
    - [print] only produces console output, and the console is taken to
      accept every text, so that printing never raises; the [verbose]
      flag only selects what is printed and is kept as an unused
      parameter. *)

From stdpp Require Import base decidable option list strings gmap pretty.
From Stdlib Require Import ZArith Lia Ascii String.

Open Scope string_scope.
Open Scope list_scope.

(** ** Python strings *)

Module PyStr.

(** [s.startswith(p)] *)
Fixpoint startswith (p s : string) : bool :=
  match p, s with
  | EmptyString, _ => true
  | String a p', String b s' => if Ascii.eqb a b then startswith p' s' else false
  | String _ _, EmptyString => false
  end.

(** [sub in s] *)
Fixpoint contains (sub s : string) : bool :=
  startswith sub s ||
  match s with
  | EmptyString => false
  | String _ s' => contains sub s'
  end.

(** [s.endswith(suf)] *)
Fixpoint endswith (suf s : string) : bool :=
  String.eqb suf s ||
  match s with
  | EmptyString => false
  | String _ s' => endswith suf s'
  end.

(** [s.split(sep)] for a non-empty [sep]: the pieces between the
    non-overlapping occurrences of [sep], scanned left to right. The
    head of the result is the piece being read; [skip] counts the
    characters of a matched separator still to drop. *)
Fixpoint split_go (sep : string) (skip : nat) (s : string) : list string :=
  match s with
  | EmptyString => [EmptyString]
  | String c s' =>
      match skip with
      | S k => split_go sep k s'
      | O =>
          if startswith sep s
          then EmptyString :: split_go sep (String.length sep - 1) s'
          else
            match split_go sep 0 s' with
            | piece :: pieces => String c piece :: pieces
            | [] => [String c EmptyString]
            end
      end
  end.

Definition split (sep s : string) : list string := split_go sep 0 s.

(** The white space of [int()]. The text is first rewritten: from code
    point 127 on, a character that is white space for Unicode becomes a
    blank (below 256 these are U+0085 and U+00A0) and any other one that
    is no decimal digit ends the text with a question mark; the integer
    parser then skips the ASCII white space (tab, line feed, vertical
    tab, form feed, carriage return, blank) on both sides. The
    separators 28 to 31 are white space for [str.isspace] but not for
    [int()]. *)
Definition is_space (c : ascii) : bool :=
  let n := nat_of_ascii c in
  ((9 <=? n)%nat && (n <=? 13)%nat) || (n =? 32)%nat
  || (n =? 133)%nat || (n =? 160)%nat.

(** The decimal digits below code point 256 are [0] to [9]. *)
Definition is_digit (c : ascii) : bool :=
  let n := nat_of_ascii c in (48 <=? n)%nat && (n <=? 57)%nat.

Fixpoint lstrip (s : string) : string :=
  match s with
  | String c s' => if is_space c then lstrip s' else s
  | EmptyString => EmptyString
  end.

Definition strip (s : string) : string :=
  String.rev (lstrip (String.rev (lstrip s))).

(** Decimal value of a digit string, most significant digit first. One
    underscore may stand between two digits; [after_digit] tells that
    the character just read was a digit. [None] when the text is not of
    that form. *)
Fixpoint digits_value (acc : Z) (after_digit : bool) (s : string) : option Z :=
  match s with
  | EmptyString => if after_digit then Some acc else None
  | String c s' =>
      if is_digit c
      then digits_value (10 * acc + Z.of_nat (nat_of_ascii c - 48)) true s'
      else if Ascii.eqb c "_" && after_digit then digits_value acc false s'
      else None
  end.

Definition unsigned_value (s : string) : option Z := digits_value 0 false s.

(** [int(s)]: surrounding white space, an optional sign, one or more
    decimal digits. [None] is [ValueError]. *)
Definition to_int (s : string) : option Z :=
  match strip s with
  | String "+" d => unsigned_value d
  | String "-" d => Z.opp <$> unsigned_value d
  | d => unsigned_value d
  end.

End PyStr.

(** ** Exceptions and results *)

(** The subclasses of [Exception] the organizer can meet. *)
Inductive exn : Type :=
  | KeyError | IndexError | TypeError | ValueError | AttributeError
  | FileNotFoundError | IsADirectoryError | NotADirectoryError
  | FileExistsError | SameFileError.

(** The result of an expression that may raise. *)
Inductive res (A : Type) : Type :=
  | Val (a : A)
  | Exc (e : exn).
Arguments Val {A} a.
Arguments Exc {A} e.

Definition res_bind {A B} (f : A -> res B) (r : res A) : res B :=
  match r with
  | Val a => f a
  | Exc e => Exc e
  end.

#[global] Instance res_ret : MRet res := fun A a => Val a.
#[global] Instance res_mbind : MBind res := fun A B f r => res_bind f r.
#[global] Instance res_fmap : FMap res := fun A B f r => res_bind (fun a => Val (f a)) r.

(** ** JSON values as Python objects *)

#[local] Set Warnings "-register-all".
Inductive json : Type :=
  | JNull
  | JBool (b : bool)
  | JInt (z : Z)
  | JStr (s : string)
  | JArr (l : list json)
  | JObj (kv : list (string * json)).

(** Hashable values, as keys of a Python [dict]: [True] and [1] are the
    same key. *)
Inductive pykey : Type :=
  | KNone
  | KInt (z : Z)
  | KStr (s : string).

#[global] Instance pykey_eq_dec : EqDecision pykey.
Proof. solve_decision. Defined.

#[global] Instance pykey_countable : Countable pykey.
Proof.
  refine (inj_countable'
    (fun k => match k with
              | KNone => inl ()
              | KInt z => inr (inl z)
              | KStr s => inr (inr s)
              end)
    (fun x => match x with
              | inl _ => KNone
              | inr (inl z) => KInt z
              | inr (inr s) => KStr s
              end) _).
  by intros [].
Defined.

Module Py.

(** [hash(v)], as far as [dict] needs it: lists and dicts are
    unhashable. *)
Definition key_of (v : json) : res pykey :=
  match v with
  | JNull => Val KNone
  | JBool b => Val (KInt (if b then 1 else 0))
  | JInt z => Val (KInt z)
  | JStr s => Val (KStr s)
  | JArr _ | JObj _ => Exc TypeError
  end.

Fixpoint assoc (k : string) (kv : list (string * json)) : option json :=
  match kv with
  | [] => None
  | (k', v) :: kv' => if String.eqb k k' then Some v else assoc k kv'
  end.

(** [v[k]] for a string [k]. *)
Definition getitem (v : json) (k : string) : res json :=
  match v with
  | JObj kv =>
      match assoc k kv with
      | Some x => Val x
      | None => Exc KeyError
      end
  | _ => Exc TypeError
  end.

(** [v[0]] *)
Definition getitem0 (v : json) : res json :=
  match v with
  | JArr (x :: _) => Val x
  | JArr [] => Exc IndexError
  | JStr (String c _) => Val (JStr (String c EmptyString))
  | JStr EmptyString => Exc IndexError
  | JObj _ => Exc KeyError
  | _ => Exc TypeError
  end.

Fixpoint chars (s : string) : list json :=
  match s with
  | EmptyString => []
  | String c s' => JStr (String c EmptyString) :: chars s'
  end.

(** [for x in v] *)
Definition iter (v : json) : res (list json) :=
  match v with
  | JArr l => Val l
  | JObj kv => Val (map (fun p => JStr (fst p)) kv)
  | JStr s => Val (chars s)
  | _ => Exc TypeError
  end.

Definition is_str (k : string) (v : json) : bool :=
  match v with
  | JStr s => String.eqb k s
  | _ => false
  end.

(** [k in v] for a string [k]. *)
Definition contains (k : string) (v : json) : res bool :=
  match v with
  | JObj kv => Val (bool_decide (is_Some (assoc k kv)))
  | JArr l => Val (existsb (is_str k) l)
  | JStr s => Val (PyStr.contains k s)
  | _ => Exc TypeError
  end.

(** [v.items()] *)
Definition items (v : json) : res (list (string * json)) :=
  match v with
  | JObj kv => Val kv
  | _ => Exc AttributeError
  end.

(** [if v:] *)
Definition truthy (v : json) : bool :=
  match v with
  | JNull => false
  | JBool b => b
  | JInt z => negb (z =? 0)%Z
  | JStr s => negb (String.eqb s EmptyString)
  | JArr l => match l with [] => false | _ => true end
  | JObj kv => match kv with [] => false | _ => true end
  end.

End Py.

(** ** The file system *)

(** A path in split form: the components below the root. *)
Definition path : Type := list string.

Fixpoint path_str_go (p : path) : string :=
  match p with
  | [] => EmptyString
  | c :: p' => "/" ++ c ++ path_str_go p'
  end.

(** The absolute path as the string Python holds. *)
Definition path_str (p : path) : string :=
  match p with
  | [] => "/"
  | _ => path_str_go p
  end.

(** [os.path.basename] *)
Definition basename (p : path) : string := List.last p EmptyString.

(** [os.path.dirname] *)
Definition dirname (p : path) : path := removelast p.

Inductive content : Type :=
  | Json (v : json)        (* a document [json.load] accepts, with its value *)
  | Blob (bytes : string). (* anything else *)

Inductive node : Type :=
  | File (c : content)
  | Dir.

(** The file system: its entries in enumeration order. *)
Definition filesys : Type := list (path * node).

Module Fs.

Fixpoint find (fs : filesys) (p : path) : option node :=
  match fs with
  | [] => None
  | (q, n) :: fs' => if decide (q = p) then Some n else find fs' p
  end.

(** What is at [p]; the root is a directory. *)
Definition node_at (fs : filesys) (p : path) : option node :=
  match p with
  | [] => Some Dir
  | _ => find fs p
  end.

(** [os.path.exists] *)
Definition exists_ (fs : filesys) (p : path) : bool :=
  match node_at fs p with
  | Some _ => true
  | None => false
  end.

(** [os.path.isdir] *)
Definition isdir (fs : filesys) (p : path) : bool :=
  match node_at fs p with
  | Some Dir => true
  | _ => false
  end.

(** Replace the node at [p], or add it as the last entry. *)
Fixpoint write (fs : filesys) (p : path) (n : node) : filesys :=
  match fs with
  | [] => [(p, n)]
  | (q, m) :: fs' =>
      if decide (q = p) then (q, n) :: fs' else (q, m) :: write fs' p n
  end.

(** The rest of [q] below [d], when [d] is a prefix of [q]. *)
Fixpoint below (d q : path) : option path :=
  match d, q with
  | [], _ => Some q
  | a :: d', b :: q' => if decide (a = b) then below d' q' else None
  | _ :: _, [] => None
  end.

Definition child_name (d q : path) : option string :=
  match below d q with
  | Some [n] => Some n
  | _ => None
  end.

(** The names directly inside [d], in enumeration order. *)
Definition entries (fs : filesys) (d : path) : list string :=
  omap (fun e => child_name d (fst e)) fs.

End Fs.

(** ** Computations on the file system that may raise *)

Inductive outcome (A : Type) : Type :=
  | Ok (a : A) (fs : filesys)
  | Raise (e : exn) (fs : filesys).
Arguments Ok {A} a fs.
Arguments Raise {A} e fs.

(** The three parts of an outcome. *)
Definition state_of {A} (o : outcome A) : filesys :=
  match o with
  | Ok _ fs => fs
  | Raise _ fs => fs
  end.

Definition raised {A} (o : outcome A) : option exn :=
  match o with
  | Ok _ _ => None
  | Raise e _ => Some e
  end.

Definition returned {A} (o : outcome A) : option A :=
  match o with
  | Ok a _ => Some a
  | Raise _ _ => None
  end.

Definition M (A : Type) : Type := filesys -> outcome A.

#[global] Instance M_ret : MRet M := fun A a fs => Ok a fs.
#[global] Instance M_bind : MBind M := fun A B f m fs =>
  match m fs with
  | Ok a fs' => f a fs'
  | Raise e fs' => Raise e fs'
  end.

Definition raise {A} (e : exn) : M A := fun fs => Raise e fs.

Definition lift {A} (r : res A) : M A :=
  match r with
  | Val a => mret a
  | Exc e => raise e
  end.

(** [try: m  except Exception: h] *)
Definition try_except {A} (m : M A) (h : exn -> M A) : M A := fun fs =>
  match m fs with
  | Ok a fs' => Ok a fs'
  | Raise e fs' => h e fs'
  end.

(** [for x in l: body x] *)
Fixpoint for_each {A} (body : A -> M unit) (l : list A) : M unit :=
  match l with
  | [] => mret ()
  | x :: l' => body x ;; for_each body l'
  end.

(** [for x in l: s = f s x], where [f] may raise. *)
Fixpoint fold_res {A S} (f : S -> A -> res S) (s : S) (l : list A) : res S :=
  match l with
  | [] => Val s
  | x :: l' => s' ← f s x; fold_res f s' l'
  end.

(** [for x in l: s = body s x], on the file system. *)
Fixpoint fold_each {A S} (body : S -> A -> M S) (s : S) (l : list A) : M S :=
  match l with
  | [] => mret s
  | x :: l' => s' ← body s x; fold_each body s' l'
  end.

(** [enumerate(l)] *)
Definition enumerate {A} (l : list A) : list (nat * A) :=
  zip (seq 0 (List.length l)) l.

Module Os.

(** [os.makedirs(p, exist_ok=True)]: [done] exists as a directory and
    [todo] is what remains of [p] below it. *)
Fixpoint makedirs_go (done todo : path) (fs : filesys) : outcome unit :=
  match todo with
  | [] => Ok () fs
  | c :: rest =>
      let d := done ++ [c] in
      match Fs.find fs d with
      | Some Dir => makedirs_go d rest fs
      | Some (File _) =>
          Raise (match rest with [] => FileExistsError | _ => NotADirectoryError end) fs
      | None => makedirs_go d rest (fs ++ [(d, Dir)])
      end
  end.

Definition makedirs (p : path) : M unit := makedirs_go [] p.

(** [os.listdir(d)] *)
Definition listdir (d : path) : M (list string) := fun fs =>
  match Fs.node_at fs d with
  | Some Dir => Ok (Fs.entries fs d) fs
  | Some (File _) => Raise NotADirectoryError fs
  | None => Raise FileNotFoundError fs
  end.

Definition path_exists (p : path) : M bool := fun fs => Ok (Fs.exists_ fs p) fs.

Definition path_isdir (p : path) : M bool := fun fs => Ok (Fs.isdir fs p) fs.

(** [shutil.copy(src, dst)]: a directory as destination receives the
    file under its own name; copying a file onto itself, reading a
    directory or a missing file, and writing where no directory is, all
    raise. File metadata is not modelled. *)
Definition copy (src dst : path) : M unit := fun fs =>
  let dst := if Fs.isdir fs dst then dst ++ [basename src] else dst in
  if Fs.exists_ fs src && bool_decide (src = dst) then Raise SameFileError fs
  else
    match Fs.node_at fs src with
    | None => Raise FileNotFoundError fs
    | Some Dir => Raise IsADirectoryError fs
    | Some (File c) =>
        match Fs.node_at fs dst with
        | Some Dir => Raise IsADirectoryError fs
        | _ =>
            match Fs.node_at fs (dirname dst) with
            | Some Dir => Ok () (Fs.write fs dst (File c))
            | Some (File _) => Raise NotADirectoryError fs
            | None => Raise FileNotFoundError fs
            end
        end
    end.

(** [shutil.copy2] differs from [shutil.copy] in the metadata only. *)
Definition copy2 (src dst : path) : M unit := copy src dst.

End Os.

(** ** organize_crp.py *)

(** [safe_read_json]: the parsed document, or [None] when the file is
    missing, is a directory, does not decode or does not parse. The
    document [null] is [None] as well. *)
Definition read_json (fs : filesys) (file_path : path) : option json :=
  match Fs.node_at fs file_path with
  | Some (File (Json JNull)) => None
  | Some (File (Json v)) => Some v
  | _ => None
  end.

Definition safe_read_json (file_path : path) : M (option json) :=
  fun fs => Ok (read_json fs file_path) fs.

(** *** The index of entry files *)

Record file_index : Type := {
  map_idx2filename : gmap Z path;
  map_filename2idx : gmap path Z
}.

(** [int(filename.split('entry_')[1].split('_')[0])] *)
Definition entry_index (filename : path) : res Z :=
  match PyStr.split "entry_" (path_str filename) !! 1%nat with
  | None => Exc IndexError
  | Some after =>
      match PyStr.split "_" after !! 0%nat with
      | None => Exc IndexError
      | Some digits =>
          match PyStr.to_int digits with
          | Some idx => Val idx
          | None => Exc ValueError
          end
      end
  end.

Definition add_entry (ix : file_index) (filename : path) : res file_index :=
  if negb (PyStr.contains "entry" (path_str filename)) then Val ix
  else
    idx ← entry_index filename;
    Val {| map_idx2filename := <[idx := filename]> (map_idx2filename ix);
           map_filename2idx := <[filename := idx]> (map_filename2idx ix) |}.

Definition build_file_index (all_files : list path) : res file_index :=
  fold_res add_entry {| map_idx2filename := ∅; map_filename2idx := ∅ |} all_files.

(** *** The manifest *)

Definition is_header (filename : path) : bool :=
  PyStr.endswith "header.json" (path_str filename).

Definition find_header (all_files : list path) : option path :=
  List.find is_header all_files.

Record hash_index : Type := {
  map_idx2hash : gmap nat json;
  map_hash2idx : gmap pykey nat
}.

Definition add_asset (st : hash_index * nat) (asset : json)
  : res (hash_index * nat) :=
  let '(hx, idx) := st in
  checksum ← Py.getitem asset "assetChecksum";
  k ← Py.key_of checksum;
  Val ({| map_idx2hash := <[idx := checksum]> (map_idx2hash hx);
          map_hash2idx := <[k := idx]> (map_hash2idx hx) |}, S idx).

Definition build_hash_index (header : json) : res hash_index :=
  assets ← Py.getitem header "assets";
  l ← Py.iter assets;
  st ← fold_res add_asset ({| map_idx2hash := ∅; map_hash2idx := ∅ |}, 0%nat) l;
  Val (fst st).

(** *** Resolution of one instance *)

(** [d[k]] on [map_hash2idx] *)
Definition hash2idx (hx : hash_index) (checksum : json) : res nat :=
  k ← Py.key_of checksum;
  match map_hash2idx hx !! k with
  | Some idx => Val idx
  | None => Exc KeyError
  end.

(** [d[idx]] on [map_idx2filename] *)
Definition idx2filename (ix : file_index) (idx : nat) : res path :=
  match map_idx2filename ix !! Z.of_nat idx with
  | Some filename => Val filename
  | None => Exc KeyError
  end.

(** The non-empty texture references of a material. *)
Definition texture_hashes_of (material : json) : res (list json) :=
  has ← Py.contains "textures" material;
  if (has : bool) then
    textures ← Py.getitem material "textures";
    kv ← Py.items textures;
    Val (List.filter Py.truthy (map snd kv))
  else Val [].

Definition looks_like_image (file_path : string) : bool :=
  PyStr.contains "Texture" file_path
  || PyStr.endswith ".png" file_path
  || PyStr.endswith ".jpg" file_path.

(** [texture_hash in file_path and (...)] *)
Definition hash_in_image_path (texture_hash : json) (file_path : path) : res bool :=
  match texture_hash with
  | JStr h => Val (PyStr.contains h (path_str file_path) && looks_like_image (path_str file_path))
  | _ => Exc TypeError
  end.

(** [for x in l: if p x: ...; break], where the test may raise. *)
Fixpoint find_res {A} (p : A -> res bool) (l : list A) : res (option A) :=
  match l with
  | [] => Val None
  | x :: l' =>
      b ← p x;
      if (b : bool) then Val (Some x) else find_res p l'
  end.

Definition option_list {A} (o : option A) : list A :=
  match o with
  | Some x => [x]
  | None => []
  end.

Section Textures.

Variable all_files : list path.
Variable ix : file_index.
Variable hx : hash_index.
Variable material_filename : path.

(** The search of the [else] branch: the first file whose path holds
    the checksum and looks like an image. *)
Definition search_by_name (texture_hash : json) : res (list path) :=
  option_list <$> find_res (hash_in_image_path texture_hash) all_files.

(** The body of the [try]: what it appends to [texture_filenames].
    A path is never the empty string, so [if texture_filename:] asks
    whether the ordinal has a file. *)
Definition texture_by_index (texture_hash : json) : res (list path) :=
  k ← Py.key_of texture_hash;
  match map_hash2idx hx !! k with
  | Some texture_idx =>
      Val (option_list (map_idx2filename ix !! Z.of_nat texture_idx))
  | None => search_by_name texture_hash
  end.

Definition is_nearby_image (file_path : path) : bool :=
  (PyStr.endswith ".png" (path_str file_path)
   || PyStr.endswith ".jpg" (path_str file_path))
  && (let material_idx := default 0%Z (map_filename2idx ix !! material_filename) in
      let file_idx := default 0%Z (map_filename2idx ix !! file_path) in
      (Z.abs (material_idx - file_idx) <? 10)%Z).

(** The [except] handler: the first image within ten entries of the
    material. *)
Definition texture_nearby : list path :=
  option_list (List.find is_nearby_image all_files).

Definition resolve_texture (texture_hash : json) : list path :=
  match texture_by_index texture_hash with
  | Val found => found
  | Exc _ => texture_nearby
  end.

Definition resolve_textures (texture_hashes : list json) : list path :=
  flat_map resolve_texture texture_hashes.

End Textures.

(** [if os.path.exists(dst): pass  else: shutil.copy(src, dst)] *)
Definition copy_if_absent (src dst : path) : M unit :=
  present ← Os.path_exists dst;
  if (present : bool) then mret () else Os.copy src dst.

Definition instance_name (inst_id : nat) : string := "instance_" ++ pretty inst_id.

Definition empty_material : json := JObj [("textures", JObj [])].

Section Instance.

Variable all_files : list path.
Variable ix : file_index.
Variable hx : hash_index.
Variable instances_dir : path.

(** The body of the loop over [gameobject_files]. *)
Definition organize_instance (inst : nat * path) : M unit :=
  let '(inst_id, gameobject_file) := inst in
  gameobject ← safe_read_json gameobject_file;
  match gameobject with
  | None => mret ()
  | Some gameobject =>
      mesh_obj_hash ← lift (Py.getitem gameobject "1_UnityEngine.MeshFilter");
      material_obj_hash ← lift (renderers ← Py.getitem gameobject "2_UnityEngine.MeshRenderer";
                                Py.getitem0 renderers);
      mesh_idx ← lift (hash2idx hx mesh_obj_hash);
      mesh_filename ← lift (idx2filename ix mesh_idx);
      material_idx ← lift (hash2idx hx material_obj_hash);
      material_filename ← lift (idx2filename ix material_idx);
      material ← safe_read_json material_filename;
      let material := default empty_material material in
      texture_hashes ← lift (texture_hashes_of material);
      let texture_filenames :=
        resolve_textures all_files ix hx material_filename texture_hashes in
      let instance_dir := instances_dir ++ [instance_name inst_id] in
      Os.makedirs instance_dir;;
      copy_if_absent gameobject_file (instance_dir ++ [basename gameobject_file]);;
      copy_if_absent mesh_filename (instance_dir ++ [basename mesh_filename]);;
      copy_if_absent material_filename (instance_dir ++ [basename material_filename]);;
      for_each (fun texture_filename =>
                  copy_if_absent texture_filename
                    (instance_dir ++ [basename texture_filename]))
               texture_filenames
  end.

End Instance.

(** *** Assigned files and the unassigned sweep *)

Section Assigned.

Variable input_dir : path.
Variable instances_dir : path.

(** The body of the loop over [os.listdir(instance_dir)]. *)
Definition claim_file (assigned_files : gset path) (filename : string)
  : M (gset path) :=
  let original_path := input_dir ++ [basename [filename]] in
  let assigned_files := {[original_path]} ∪ assigned_files in
  let full_path := input_dir ++ [filename] in
  present ← Os.path_exists full_path;
  mret (if (present : bool) then {[full_path]} ∪ assigned_files else assigned_files).

Definition claim_instance (assigned_files : gset path) (inst_id : nat)
  : M (gset path) :=
  let instance_dir := instances_dir ++ [instance_name inst_id] in
  present ← Os.path_exists instance_dir;
  if (present : bool) then
    names ← Os.listdir instance_dir;
    fold_each claim_file assigned_files names
  else mret assigned_files.

Definition collect_assigned (n : nat) : M (gset path) :=
  fold_each claim_instance ∅ (seq 0 n).

End Assigned.

Inductive bucket : Type := mesh | material | texture | other.

Definition bucket_name (b : bucket) : string :=
  match b with
  | mesh => "mesh"
  | material => "material"
  | texture => "texture"
  | other => "other"
  end.

Definition buckets : list bucket := [mesh; material; texture; other].

(** The type of an unassigned file, by its name. *)
Definition file_type (filename : string) : bucket :=
  if PyStr.endswith ".obj" filename || PyStr.contains "Mesh" filename then mesh
  else if PyStr.endswith ".json" filename && PyStr.contains "Material" filename then material
  else if PyStr.endswith ".png" filename || PyStr.endswith ".jpg" filename
          || PyStr.contains "Texture" filename then texture
  else other.

(** The body of the loop over the unassigned files. *)
Definition place_unassigned (unassigned_dir : path) (assigned_files : gset path)
    (file_path : path) : M unit :=
  if bool_decide (file_path ∈ assigned_files) then mret ()
  else
    let filename := basename file_path in
    let dest_dir := unassigned_dir ++ [bucket_name (file_type filename)] in
    Os.copy2 file_path (dest_dir ++ [filename]).

(** *** organize_crp_assets *)

Definition is_gameobject (filename : path) : bool :=
  PyStr.endswith "GameObject.json" (path_str filename).

Definition default_output (input_dir : path) : path := input_dir ++ ["organized"].

Definition instances_of (output_dir : path) : path := output_dir ++ ["instances"].
Definition unassigned_of (output_dir : path) : path := output_dir ++ ["unassigned"].
Definition bucket_dir (output_dir : path) (b : bucket) : path :=
  unassigned_of output_dir ++ [bucket_name b].

(** Lines 29-51: the output directories are made, then the input
    directory is listed. *)
Definition discover_files (input_dir output_dir : path) : M (list path) :=
  Os.makedirs output_dir;;
  Os.makedirs (instances_of output_dir);;
  Os.makedirs (unassigned_of output_dir);;
  for_each Os.makedirs (map (bucket_dir output_dir) buckets);;
  names ← Os.listdir input_dir;
  mret (map (fun filename => input_dir ++ [filename]) names).

(** Lines 85-98: the manifest is the first file whose path ends with
    [header.json]. *)
Definition load_header (all_files : list path) : M json :=
  header_file ← match find_header all_files with
                | Some f => mret f
                | None => raise ValueError
                end;
  header ← safe_read_json header_file;
  match header with
  | Some h => mret h
  | None => raise ValueError
  end.

Definition gameobject_files_of (all_files : list path) : list path :=
  List.filter is_gameobject all_files.

(** Lines 70-296: the indexes, the instances, the unassigned sweep. *)
Definition organize_files (input_dir output_dir : path) (all_files : list path)
  : M unit :=
  ix ← lift (build_file_index all_files);
  header ← load_header all_files;
  hx ← lift (build_hash_index header);
  let gameobject_files := gameobject_files_of all_files in
  for_each (organize_instance all_files ix hx (instances_of output_dir))
           (enumerate gameobject_files);;
  assigned_files ← collect_assigned input_dir (instances_of output_dir)
                     (List.length gameobject_files);
  for_each (place_unassigned (unassigned_of output_dir) assigned_files) all_files.

(** [input_dir] is the absolute path [os.path.abspath] returns. *)
Definition organize_crp_assets (input_dir : path) (output_dir : option path)
    (verbose : bool) : M path :=
  let output_dir := default (default_output input_dir) output_dir in
  all_files ← discover_files input_dir output_dir;
  organize_files input_dir output_dir all_files;;
  mret output_dir.

(** *** process_crp_folders, main and the script *)

(** [f"{folder_path}_organized"] *)
Definition organized_sibling (folder_path : path) : path :=
  match folder_path with
  | [] => ["_organized"]
  | _ => removelast folder_path ++ [basename folder_path +:+ "_organized"]
  end.

(** The body of the loop over [crp_folders]; [folder_path] is the
    absolute path of the line. *)
Definition process_folder (verbose : bool) (counts : nat * nat) (folder_path : path)
  : M (nat * nat) :=
  let '(success_count, failure_count) := counts in
  isdir ← Os.path_isdir folder_path;
  if negb isdir then mret (success_count, S failure_count)
  else
    let output_path := organized_sibling folder_path in
    try_except
      (organize_crp_assets folder_path (Some output_path) verbose;;
       mret (S success_count, failure_count))
      (fun _ => mret (success_count, S failure_count)).

(** [crp_folders] is the list file as read: its non-blank lines, or
    [None] when reading it raised. *)
Definition process_crp_folders (crp_folders : option (list path)) (verbose : bool)
  : M Z :=
  match crp_folders with
  | None => mret 1%Z
  | Some crp_folders =>
      counts ← fold_each (process_folder verbose) (0%nat, 0%nat) crp_folders;
      mret (if (snd counts =? 0)%nat then 0%Z else 1%Z)
  end.

(** The parsed command line: [--input] (with [--output]) or [--file]. *)
Inductive args : Type :=
  | Input (input : path) (output : option path) (verbose : bool)
  | FileList (crp_folders : option (list path)) (verbose : bool).

Definition main (a : args) : M Z :=
  match a with
  | FileList crp_folders verbose => process_crp_folders crp_folders verbose
  | Input input output verbose =>
      organize_crp_assets input output verbose;;
      mret 0%Z
  end.

(** The [if __name__ == "__main__":] block: the value of [main()] is
    dropped and every exception is printed. *)
Definition script (a : args) : M unit :=
  try_except (main a;; mret ()) (fun _ => mret ()).

(** The exit status of the interpreter: 0 when the script runs to its
    end, 1 when an exception escapes it. *)
Definition exit_status (a : args) (fs : filesys) : Z :=
  match script a fs with
  | Ok _ _ => 0%Z
  | Raise _ _ => 1%Z
  end.

(** What [main] returned, when it returned. *)
Definition main_result (a : args) (fs : filesys) : option Z :=
  match main a fs with
  | Ok code _ => Some code
  | Raise _ _ => None
  end.

(** ** The specification's wording, for comparison *)

Module Claimed.

(** The manifest "identified by an exact filename match". *)
Definition is_manifest (filename : path) : bool :=
  String.eqb (basename filename) "header.json".

(** Manifest loading that "fails if zero or more than one candidate
    exists". *)
Definition find_manifest (all_files : list path) : option path :=
  match List.filter is_manifest all_files with
  | [f] => Some f
  | _ => None
  end.




(** The fallback chain of the texture resolver in the specification's
    words: the checksum index; then the first file whose path holds the
    checksum and that looks like an image; then the first image within
    the window of ten entries around the material file. *)
Section Chain.

Variable all_files : list path.
Variable ix : file_index.
Variable hx : hash_index.
Variable material_filename : path.

Definition by_index (h : string) : option path :=
  idx ← map_hash2idx hx !! KStr h;
  map_idx2filename ix !! Z.of_nat idx.

Definition image_named (h : string) (file_path : path) : bool :=
  PyStr.contains h (path_str file_path)
  && (PyStr.endswith ".png" (path_str file_path)
      || PyStr.endswith ".jpg" (path_str file_path)
      || PyStr.contains "Texture" (basename file_path)).

Definition within_window (file_path : path) : bool :=
  (PyStr.endswith ".png" (path_str file_path)
   || PyStr.endswith ".jpg" (path_str file_path))
  && (let material_idx := default 0%Z (map_filename2idx ix !! material_filename) in
      let file_idx := default 0%Z (map_filename2idx ix !! file_path) in
      (Z.abs (material_idx - file_idx) <=? 10)%Z).

Definition resolve_texture (h : string) : list path :=
  option_list
    (match by_index h with
     | Some f => Some f
     | None =>
         match List.find (image_named h) all_files with
         | Some f => Some f
         | None => List.find within_window all_files
         end
     end).

End Chain.

End Claimed.

(** ** Concrete inputs *)

Module Scenario.

Definition input_dir : path := ["data"; "crp"].
Definition output_dir : path := ["data"; "crp_organized"].

Definition asset (checksum : string) : json :=
  JObj [("assetChecksum", JStr checksum)].

Definition header (checksums : list string) : content :=
  Json (JObj [("assets", JArr (map asset checksums))]).

Definition gameobject (mesh_checksum material_checksum : string) : content :=
  Json (JObj [("1_UnityEngine.MeshFilter", JStr mesh_checksum);
              ("2_UnityEngine.MeshRenderer", JArr [JStr material_checksum])]).

Definition material_doc (slots : list (string * json)) : content :=
  Json (JObj [("textures", JObj slots)]).

Definition in_input (name : string) (n : node) : path * node :=
  (input_dir ++ [name], n).

Definition base : filesys := [(["data"], Dir); (input_dir, Dir)].

(** The end-to-end scenario: two assets, one scene object, an empty
    texture slot. *)
Definition end_to_end : filesys :=
  base ++
  [ in_input "header.json" (File (header ["A1"; "B2"]));
    in_input "entry_0_x.obj" (File (Blob "o mesh"));
    in_input "entry_1_x.json" (File (material_doc [("diffuse", JStr "")]));
    in_input "entry_2_GameObject.json" (File (gameobject "A1" "B2")) ].

(** A scene object whose mesh checksum is not in the manifest, listed
    before a scene object that resolves. *)
Definition unresolved_mesh : filesys :=
  base ++
  [ in_input "header.json" (File (header ["A1"; "B2"]));
    in_input "entry_0_x.obj" (File (Blob "o mesh"));
    in_input "entry_1_x.json" (File (material_doc []));
    in_input "entry_2_GameObject.json" (File (gameobject "ZZ" "B2"));
    in_input "entry_3_GameObject.json" (File (gameobject "A1" "B2")) ].

(** A material checksum whose ordinal (2) has no entry file. *)
Definition unbacked_material : filesys :=
  base ++
  [ in_input "header.json" (File (header ["A1"; "B2"; "C3"]));
    in_input "entry_0_x.obj" (File (Blob "o mesh"));
    in_input "entry_1_x.json" (File (material_doc []));
    in_input "entry_7_GameObject.json" (File (gameobject "A1" "C3"));
    in_input "entry_8_GameObject.json" (File (gameobject "A1" "B2")) ].

(** A scene object without the renderer key, and one without the mesh
    key, each listed before a scene object that resolves. *)
Definition no_renderer_key : filesys :=
  base ++
  [ in_input "header.json" (File (header ["A1"; "B2"]));
    in_input "entry_0_x.obj" (File (Blob "o mesh"));
    in_input "entry_1_x.json" (File (material_doc []));
    in_input "entry_2_GameObject.json"
      (File (Json (JObj [("1_UnityEngine.MeshFilter", JStr "A1")])));
    in_input "entry_3_GameObject.json" (File (gameobject "A1" "B2")) ].

Definition no_mesh_key : filesys :=
  base ++
  [ in_input "header.json" (File (header ["A1"; "B2"]));
    in_input "entry_0_x.obj" (File (Blob "o mesh"));
    in_input "entry_1_x.json" (File (material_doc []));
    in_input "entry_2_GameObject.json"
      (File (Json (JObj [("2_UnityEngine.MeshRenderer", JArr [JStr "B2"])])));
    in_input "entry_3_GameObject.json" (File (gameobject "A1" "B2")) ].

Definition run (fs : filesys) : outcome path :=
  organize_crp_assets input_dir (Some output_dir) false fs.

Definition instance_path (inst_id : nat) (names : list string) : path :=
  instances_of output_dir ++ [instance_name inst_id] ++ names.

Definition batch (fs : filesys) : outcome Z :=
  process_crp_folders (Some [input_dir]) false fs.

Definition listed (fs : filesys) : list path :=
  map (fun name => input_dir ++ [name]) (Fs.entries fs input_dir).

(** Two files whose names end with [header.json]; the first one in
    enumeration order is not named [header.json]. *)
Definition two_manifests : filesys :=
  base ++
  [ in_input "old_header.json" (File (header ["A1"; "B2"]));
    in_input "header.json" (File (header ["X9"]));
    in_input "entry_0_x.obj" (File (Blob "o mesh"));
    in_input "entry_1_x.json" (File (material_doc []));
    in_input "entry_2_GameObject.json" (File (gameobject "A1" "B2")) ].




(** An input directory whose own name holds [entry]. *)
Definition entry_dir : path := ["data"; "myentry"].

Definition in_entry_dir : filesys :=
  [ (["data"], Dir); (entry_dir, Dir);
    (entry_dir ++ ["header.json"], File (header [])) ].

Definition index_of (fs : filesys) : file_index :=
  match build_file_index (listed fs) with
  | Val ix => ix
  | Exc _ => {| map_idx2filename := ∅; map_filename2idx := ∅ |}
  end.

Definition hashes_of (checksums : list string) : hash_index :=
  match build_hash_index (JObj [("assets", JArr (map asset checksums))]) with
  | Val hx => hx
  | Exc _ => {| map_idx2hash := ∅; map_hash2idx := ∅ |}
  end.



(** A texture reference [T9] that is in no index and in no path, next
    to an image two entries after the material, and an image ten
    entries after it. *)
Definition lonely_texture : filesys :=
  base ++
  [ in_input "header.json" (File (header ["A1"; "B2"]));
    in_input "entry_0_x.obj" (File (Blob "o mesh"));
    in_input "entry_1_x.json" (File (material_doc [("diffuse", JStr "T9")]));
    in_input "entry_2_GameObject.json" (File (gameobject "A1" "B2"));
    in_input "entry_3_skin.png" (File (Blob "png")) ].

Definition far_image : filesys :=
  base ++
  [ in_input "header.json" (File (header ["A1"; "B2"]));
    in_input "entry_0_x.obj" (File (Blob "o mesh"));
    in_input "entry_1_x.json" (File (material_doc [("diffuse", JInt 5)]));
    in_input "entry_2_GameObject.json" (File (gameobject "A1" "B2"));
    in_input "entry_11_far.png" (File (Blob "png")) ].

Definition bucket_path (b : bucket) (name : string) : path :=
  bucket_dir output_dir b ++ [name].

(** The same, with a file whose name holds the checksum [T9], listed
    after the image that is close to the material. *)
Definition named_texture : filesys :=
  lonely_texture ++ [ in_input "T9_diffuse.png" (File (Blob "png")) ].

(** The state after the first run of the end-to-end scenario, and the
    same with one copy of each kind edited by hand. *)
Definition first_run : filesys := state_of (run end_to_end).

Definition edited : filesys :=
  Fs.write
    (Fs.write first_run (bucket_path other "header.json") (File (Blob "edited")))
    (instance_path 0 ["entry_0_x.obj"]) (File (Blob "edited")).


(** The assigned files the second run computes. *)
Definition assigned_again : gset path :=
  default ∅ (returned (collect_assigned input_dir (instances_of output_dir) 1
                         first_run)).

(** The end-to-end scenario with the default output directory left by
    an earlier run, in which the directory of instance 0 holds an entry
    named [organized]. *)
Definition stale_instance_entry : filesys :=
  end_to_end ++
  [ (input_dir ++ ["organized"], Dir);
    (input_dir ++ ["organized"; "instances"], Dir);
    (input_dir ++ ["organized"; "instances"; "instance_0"], Dir);
    (input_dir ++ ["organized"; "instances"; "instance_0"; "organized"],
     File (Blob "left by an earlier run")) ].

(** Two entry files with the same index. *)
Definition twin_entries : filesys :=
  base ++
  [ in_input "entry_3_a.obj" (File (Blob "a"));
    in_input "entry_3_b.obj" (File (Blob "b")) ].

End Scenario.

(** ** Notions used to state the properties *)

(** What a computation guarantees when it returns. *)
Definition ensures {A} (m : M A) (fs : filesys) (Q : A -> filesys -> Prop) : Prop :=
  match m fs with
  | Ok a fs' => Q a fs'
  | Raise _ _ => True
  end.

(** [fs'] is [fs] with new entries, each satisfying [P]; what [fs] holds
    is left as it is. *)
Definition grows_by (P : path -> node -> Prop) (fs fs' : filesys) : Prop :=
  forall q,
    Fs.find fs' q = Fs.find fs q
    \/ (Fs.find fs q = None /\ exists n, Fs.find fs' q = Some n /\ P q n).

(** [fs'] is [fs] with entries added or replaced, each satisfying [P];
    nothing is removed. *)
Definition changes (P : path -> node -> Prop) (fs fs' : filesys) : Prop :=
  forall q,
    Fs.find fs' q = Fs.find fs q
    \/ (exists n, Fs.find fs' q = Some n /\ P q n).

(** The entries [os.makedirs(p)] may add. *)
Definition made_for (p : path) : path -> node -> Prop :=
  fun q n => n = Dir /\ q `prefix_of` p.

(** The three files every instance directory receives. *)
Definition bundle_of (instance_dir gameobject_file mesh_filename material_filename : path)
  : list path :=
  [instance_dir ++ [basename gameobject_file];
   instance_dir ++ [basename mesh_filename];
   instance_dir ++ [basename material_filename]].

(** The entries the loop over the scene objects may add, seen from the
    state [fs1] in which the loop starts: directories on the way to an
    instance directory, and in an instance directory a copy of a listed
    file that was not a directory. *)
Definition instance_entry (all_files : list path) (instances_dir : path)
    (fs1 : filesys) : path -> node -> Prop :=
  fun q n =>
    (n = Dir /\ exists i, q `prefix_of` (instances_dir ++ [i]))
    \/ (exists src i,
          q = instances_dir ++ [i; basename src]
          /\ src ∈ all_files
          /\ Fs.node_at fs1 src <> Some Dir
          /\ n <> Dir).

(** Every file of the index is a listed file. *)
Definition index_within (ix : file_index) (all_files : list path) : Prop :=
  forall k f, map_idx2filename ix !! k = Some f -> f ∈ all_files.

Definition anything : path -> node -> Prop := fun _ _ => True.

(** [name] is listed in the directory [d]. *)
Definition inside (fs : filesys) (d : path) (name : string) : Prop :=
  Fs.node_at fs d = Some Dir /\ name ∈ Fs.entries fs d.

(** Where the sweep puts an unassigned file. *)
Definition unassigned_dest (output_dir : path) (file_path : path) : path :=
  bucket_dir output_dir (file_type (basename file_path)) ++ [basename file_path].

(** The entries [discover_files] may add. *)
Definition output_skeleton (output_dir : path) : path -> node -> Prop :=
  fun q n => n = Dir /\ exists x y, q `prefix_of` (output_dir ++ [x; y]).







(** The test of the index loop: [entry] occurs in the path. *)
Definition is_entry (filename : path) : bool :=
  PyStr.contains "entry" (path_str filename).

(** [f] is the last entry file of [all_files] with the index [idx]. *)
Definition last_with_index (all_files : list path) (idx : Z) (f : path) : Prop :=
  exists pre post,
    all_files = pre ++ f :: post
    /\ is_entry f = true
    /\ entry_index f = Val idx
    /\ forall g, g ∈ post -> is_entry g = true -> entry_index g <> Val idx.

(** The scene object [gameobject] of the file [gameobject_file] has its
    bundle in the instance directory [instance_dir]: its mesh and
    material resolve, and the directory holds the three files. *)
Definition bundled (ix : file_index) (hx : hash_index) (fs : filesys)
    (instance_dir gameobject_file : path) (gameobject : json) : Prop :=
  exists mesh_hash material_hash mesh_filename material_filename,
    Py.getitem gameobject "1_UnityEngine.MeshFilter" = Val mesh_hash
    /\ (Py.getitem gameobject "2_UnityEngine.MeshRenderer" ≫= Py.getitem0)
       = Val material_hash
    /\ (hash2idx hx mesh_hash ≫= idx2filename ix) = Val mesh_filename
    /\ (hash2idx hx material_hash ≫= idx2filename ix) = Val material_filename
    /\ Fs.node_at fs instance_dir = Some Dir
    /\ Forall (fun dst => Fs.exists_ fs dst = true)
         (bundle_of instance_dir gameobject_file mesh_filename material_filename).

(** * Properties *)

Ltac unfold_M :=
  unfold mbind, M_bind, mret, M_ret, raise, lift, try_except,
    res_mbind, res_bind, res_ret, fmap, res_fmap in *.

(** ** The end-to-end scenario *)

(** Two assets, one scene object, an empty texture slot: one instance
    directory with the scene object, the mesh and the material, and the
    manifest in the bucket [other]. *)
Example end_to_end_run :
  let result := Scenario.run Scenario.end_to_end in
  returned result = Some Scenario.output_dir
  /\ Fs.entries (state_of result) (Scenario.instance_path 0 [])
     = ["entry_2_GameObject.json"; "entry_0_x.obj"; "entry_1_x.json"]
  /\ Fs.entries (state_of result) (instances_of Scenario.output_dir)
     = ["instance_0"]
  /\ map (fun b => Fs.entries (state_of result) (bucket_dir Scenario.output_dir b))
       buckets
     = [[]; []; []; ["header.json"]].
Proof. repeat split; vm_compute; reflexivity. Qed.

(** Under the default output location the same input ends in the
    sweep, at the directory [organized]. *)
Example end_to_end_default_output :
  raised (organize_crp_assets Scenario.input_dir None false Scenario.end_to_end)
  = Some IsADirectoryError.
Proof. vm_compute. reflexivity. Qed.

(** ** Strings *)

Section StringFacts.

Lemma append_nil_l (s : string) : "" +:+ s = s.
Proof. reflexivity. Qed.

Lemma append_cons (c : ascii) (a b : string) :
  String c a +:+ b = String c (a +:+ b).
Proof. reflexivity. Qed.





Lemma endswith_spec (suf s : string) :
  PyStr.endswith suf s = true <-> exists pre, s = pre +:+ suf.
Proof.
  induction s as [|c s IH]; simpl.
  - rewrite orb_false_r, String.eqb_eq. split.
    + intros ->. by exists "".
    + intros [[|c pre] H]; [done | by rewrite append_cons in H].
  - rewrite orb_true_iff, String.eqb_eq, IH. split.
    + intros [-> | [pre ->]]; [by exists "" | by exists (String c pre)].
    + intros [[|c' pre] H]; [by left|].
      rewrite append_cons in H. right. exists pre. congruence.
Qed.




End StringFacts.

(** ** The file system *)

Section FsFacts.

Implicit Types (fs : filesys) (p q d : path) (n : node).

Lemma find_app_last fs p n q :
  Fs.find (fs ++ [(p, n)]) q =
  match Fs.find fs q with
  | Some m => Some m
  | None => if decide (p = q) then Some n else None
  end.
Proof.
  induction fs as [|[p' m] fs IH]; simpl; [done|].
  by destruct (decide (p' = q)).
Qed.

Lemma find_write fs p n q :
  Fs.find (Fs.write fs p n) q = if decide (p = q) then Some n else Fs.find fs q.
Proof.
  induction fs as [|[p' m] fs IH]; simpl; [done|].
  destruct (decide (p' = p)) as [->|Hne]; simpl.
  - by destruct (decide (p = q)).
  - rewrite IH. destruct (decide (p' = q)) as [->|]; [|done].
    by rewrite decide_False.
Qed.

Lemma node_at_below fs d name rest :
  Fs.node_at fs (d ++ name :: rest) = Fs.find fs (d ++ name :: rest).
Proof. by destruct d. Qed.

Lemma find_is_Some fs q :
  is_Some (Fs.find fs q) <-> exists n, (q, n) ∈ fs.
Proof.
  induction fs as [|[p m] fs IH]; simpl.
  - split; [by intros [? ?] | by intros [? ?%elem_of_nil]].
  - destruct (decide (p = q)) as [->|Hne].
    + split; [|by eauto]. intros _. exists m. by left.
    + rewrite IH. split; intros [n Hn]; exists n.
      * by right.
      * apply elem_of_cons in Hn as [?|?]; [congruence | done].
Qed.

Lemma below_spec d q rest : Fs.below d q = Some rest <-> q = d ++ rest.
Proof.
  revert q. induction d as [|a d IH]; intros [|b q]; simpl;
    try (split; congruence).
  destruct (decide (a = b)) as [->|Hne].
  - rewrite IH. split; congruence.
  - split; congruence.
Qed.

Lemma child_name_spec d q name : Fs.child_name d q = Some name <-> q = d ++ [name].
Proof.
  unfold Fs.child_name. destruct (Fs.below d q) as [rest|] eqn:E.
  - apply below_spec in E as ->.
    destruct rest as [|x [|y rest]]; split; intros H; try done;
      try (apply app_inv_head in H); congruence.
  - split; [done|]. intros ->.
    by rewrite (proj2 (below_spec d (d ++ [name]) [name]) eq_refl) in E.
Qed.

(** The listing of a directory holds the names with an entry in it. *)
Lemma entries_spec fs d name :
  name ∈ Fs.entries fs d <-> is_Some (Fs.find fs (d ++ [name])).
Proof.
  unfold Fs.entries. rewrite list_elem_of_omap, find_is_Some. split.
  - intros ([q n] & Hin & Hc). apply child_name_spec in Hc. simpl in Hc.
    subst. eauto.
  - intros [n Hin]. exists (d ++ [name], n). split; [done|].
    by apply child_name_spec.
Qed.

Lemma removelast_snoc (d : path) (name : string) : removelast (d ++ [name]) = d.
Proof. by rewrite removelast_app, app_nil_r. Qed.

Lemma basename_snoc (d : path) (name : string) : basename (d ++ [name]) = name.
Proof. unfold basename. apply List.last_last. Qed.

End FsFacts.

(** ** Loops *)

Lemma for_each_app {A} (body : A -> M unit) (l1 l2 : list A) (fs : filesys) :
  for_each body (l1 ++ l2) fs =
  match for_each body l1 fs with
  | Ok _ fs1 => for_each body l2 fs1
  | Raise e fs1 => Raise e fs1
  end.
Proof.
  revert fs. induction l1 as [|x l1 IH]; intros fs; simpl; [done|].
  unfold_M. destruct (body x fs); [apply IH | done].
Qed.

(** An iteration that raises ends the loop: the elements after it are
    never visited. *)
Lemma for_each_raise_at {A} (body : A -> M unit) (l1 l2 : list A) (x : A)
    (fs fs1 fs2 : filesys) (e : exn) :
  for_each body l1 fs = Ok () fs1 ->
  body x fs1 = Raise e fs2 ->
  for_each body (l1 ++ x :: l2) fs = Raise e fs2.
Proof.
  intros H1 H2. rewrite for_each_app, H1. simpl. unfold_M. by rewrite H2.
Qed.

(** ** Reasoning about computations *)

Section Ensures.

Context {A B : Type}.

Lemma ensures_ok (m : M A) fs a fs' (Q : A -> filesys -> Prop) :
  m fs = Ok a fs' -> ensures m fs Q -> Q a fs'.
Proof. unfold ensures. by intros ->. Qed.

Lemma ensures_ret (a : A) fs (Q : A -> filesys -> Prop) :
  Q a fs -> ensures (mret a) fs Q.
Proof. done. Qed.

Lemma ensures_raise e fs (Q : A -> filesys -> Prop) : ensures (raise e) fs Q.
Proof. done. Qed.

Lemma ensures_lift (r : res A) fs (Q : A -> filesys -> Prop) :
  (forall a, r = Val a -> Q a fs) -> ensures (lift r) fs Q.
Proof. destruct r; [intros H; by apply H | done]. Qed.

Lemma ensures_read (g : filesys -> A) fs (Q : A -> filesys -> Prop) :
  Q (g fs) fs -> ensures (fun fs => Ok (g fs) fs) fs Q.
Proof. done. Qed.

Lemma ensures_bind (m : M A) (f : A -> M B) fs (Q : B -> filesys -> Prop) :
  ensures m fs (fun a fs' => ensures (f a) fs' Q) -> ensures (m ≫= f) fs Q.
Proof. unfold ensures. unfold_M. by destruct (m fs). Qed.

Lemma ensures_mono (m : M A) fs (Q Q' : A -> filesys -> Prop) :
  ensures m fs Q -> (forall a fs', Q a fs' -> Q' a fs') -> ensures m fs Q'.
Proof. unfold ensures. destruct (m fs); auto. Qed.

End Ensures.

Lemma bind_ok {A B} (m : M A) (f : A -> M B) fs a fs' :
  m fs = Ok a fs' -> (m ≫= f) fs = f a fs'.
Proof. unfold_M. by intros ->. Qed.

Lemma bind_raise {A B} (m : M A) (f : A -> M B) fs e fs' :
  m fs = Raise e fs' -> (m ≫= f) fs = Raise e fs'.
Proof. unfold_M. by intros ->. Qed.

Lemma bind_lift {A B} (r : res A) (f : A -> M B) fs a :
  r = Val a -> (lift r ≫= f) fs = f a fs.
Proof. by intros ->. Qed.

Lemma bind_lift_exc {A B} (r : res A) (f : A -> M B) fs e :
  r = Exc e -> (lift r ≫= f) fs = Raise e fs.
Proof. by intros ->. Qed.


Lemma ensures_for_each {A} (body : A -> M unit) (Inv : filesys -> Prop)
    (l : list A) (fs : filesys) :
  (forall x fs1, x ∈ l -> Inv fs1 -> ensures (body x) fs1 (fun _ => Inv)) ->
  Inv fs ->
  ensures (for_each body l) fs (fun _ => Inv).
Proof.
  revert fs. induction l as [|x l IH]; intros fs Hbody Hinv; [done|].
  simpl. apply ensures_bind.
  eapply ensures_mono; [apply Hbody; [by left | done]|].
  intros u fs' Hinv'. apply IH; [|done].
  intros y fs1 Hy. apply Hbody. by right.
Qed.

Lemma ensures_fold_each {A S} (body : S -> A -> M S) (Inv : S -> filesys -> Prop)
    (l : list A) (s : S) (fs : filesys) :
  (forall x s1 fs1, x ∈ l -> Inv s1 fs1 -> ensures (body s1 x) fs1 Inv) ->
  Inv s fs ->
  ensures (fold_each body s l) fs Inv.
Proof.
  revert s fs. induction l as [|x l IH]; intros s fs Hbody Hinv; [done|].
  simpl. apply ensures_bind.
  eapply ensures_mono; [apply Hbody; [by left | done]|].
  intros s' fs' Hinv'. apply IH; [|done].
  intros y s1 fs1 Hy. apply Hbody. by right.
Qed.

(** Loop invariants that know which elements have been visited. *)
Lemma ensures_for_each_visited {A} (body : A -> M unit)
    (Inv : list A -> filesys -> Prop) (l : list A) (fs : filesys) :
  (forall pre x post fs1,
      l = pre ++ x :: post -> Inv pre fs1 ->
      ensures (body x) fs1 (fun _ => Inv (pre ++ [x]))) ->
  Inv [] fs ->
  ensures (for_each body l) fs (fun _ => Inv l).
Proof.
  intros Hbody. assert (Hgen : forall done todo fs0,
    l = done ++ todo -> Inv done fs0 ->
    ensures (for_each body todo) fs0 (fun _ => Inv l)).
  { intros done todo. revert done.
    induction todo as [|x todo IH]; intros done fs0 Hl Hinv.
    - rewrite app_nil_r in Hl. by subst.
    - simpl. apply ensures_bind.
      eapply ensures_mono; [by apply (Hbody done x todo)|].
      intros u fs1 Hinv1. apply (IH (done ++ [x])); [|done].
      by rewrite <- app_assoc. }
  intros Hinv. by apply (Hgen [] l).
Qed.

Lemma ensures_fold_each_visited {A S} (body : S -> A -> M S)
    (Inv : list A -> S -> filesys -> Prop) (l : list A) (s : S) (fs : filesys) :
  (forall pre x post s1 fs1,
      l = pre ++ x :: post -> Inv pre s1 fs1 ->
      ensures (body s1 x) fs1 (Inv (pre ++ [x]))) ->
  Inv [] s fs ->
  ensures (fold_each body s l) fs (Inv l).
Proof.
  intros Hbody. assert (Hgen : forall done todo s0 fs0,
    l = done ++ todo -> Inv done s0 fs0 ->
    ensures (fold_each body s0 todo) fs0 (Inv l)).
  { intros done todo. revert done.
    induction todo as [|x todo IH]; intros done s0 fs0 Hl Hinv.
    - rewrite app_nil_r in Hl. by subst.
    - simpl. apply ensures_bind.
      eapply ensures_mono; [by apply (Hbody done x todo)|].
      intros s1 fs1 Hinv1. apply (IH (done ++ [x])); [|done].
      by rewrite <- app_assoc. }
  intros Hinv. by apply (Hgen [] l).
Qed.

Lemma ensures_listdir (d : path) (fs : filesys) (Q : list string -> filesys -> Prop) :
  (Fs.node_at fs d = Some Dir -> Q (Fs.entries fs d) fs) ->
  ensures (Os.listdir d) fs Q.
Proof.
  unfold ensures, Os.listdir. destruct (Fs.node_at fs d) as [[|]|]; auto.
Qed.

(** ** How the file system evolves *)

Section Evolution.

Implicit Types (P : path -> node -> Prop) (fs : filesys).

Lemma grows_by_refl P fs : grows_by P fs fs.
Proof. intros q. by left. Qed.

Lemma grows_by_trans P fs1 fs2 fs3 :
  grows_by P fs1 fs2 -> grows_by P fs2 fs3 -> grows_by P fs1 fs3.
Proof.
  intros H12 H23 q. destruct (H23 q) as [E|(E & n & Hn & HP)].
  - rewrite E. apply H12.
  - destruct (H12 q) as [E'|(E' & n' & Hn' & _)]; [|congruence].
    right. split; [congruence | eauto].
Qed.

Lemma grows_by_mono P P' fs fs' :
  (forall q n, P q n -> P' q n) -> grows_by P fs fs' -> grows_by P' fs fs'.
Proof.
  intros HPP H q. destruct (H q) as [E|(E & n & Hn & HP)]; [by left|].
  right. eauto.
Qed.

(** Growth leaves every existing entry as it is. *)
Lemma grows_by_keeps P fs fs' q n :
  grows_by P fs fs' -> Fs.find fs q = Some n -> Fs.find fs' q = Some n.
Proof. intros H Hq. destruct (H q) as [E|[E _]]; congruence. Qed.

Lemma grows_by_frame P fs fs' q :
  grows_by P fs fs' -> (forall n, ~ P q n) -> Fs.find fs' q = Fs.find fs q.
Proof. intros H Hq. destruct (H q) as [E|(_ & n & _ & HP)]; [done|]. by destruct (Hq n). Qed.

Lemma grows_by_write P fs q n :
  Fs.find fs q = None -> P q n -> grows_by P fs (Fs.write fs q n).
Proof.
  intros Hq HP q'. rewrite find_write. destruct (decide (q = q')) as [<-|]; [|by left].
  right. eauto.
Qed.

Lemma grows_by_append P fs q n :
  Fs.find fs q = None -> P q n -> grows_by P fs (fs ++ [(q, n)]).
Proof.
  intros Hq HP q'. rewrite find_app_last.
  destruct (Fs.find fs q') eqn:E; [by left|].
  destruct (decide (q = q')) as [<-|]; [|by left]. right. eauto.
Qed.

Lemma changes_refl P fs : changes P fs fs.
Proof. intros q. by left. Qed.

Lemma changes_trans P fs1 fs2 fs3 :
  changes P fs1 fs2 -> changes P fs2 fs3 -> changes P fs1 fs3.
Proof.
  intros H12 H23 q. destruct (H23 q) as [E|H]; [|by right].
  rewrite E. apply H12.
Qed.

Lemma changes_frame P fs fs' q :
  changes P fs fs' -> (forall n, ~ P q n) -> Fs.find fs' q = Fs.find fs q.
Proof. intros H Hq. destruct (H q) as [E|(n & _ & HP)]; [done|]. by destruct (Hq n). Qed.

Lemma changes_write P fs q n : P q n -> changes P fs (Fs.write fs q n).
Proof.
  intros HP q'. rewrite find_write. destruct (decide (q = q')) as [<-|]; [|by left].
  right. eauto.
Qed.

Lemma grows_by_node_at P fs fs' (q : path) (n : node) :
  grows_by P fs fs' -> Fs.node_at fs q = Some n -> Fs.node_at fs' q = Some n.
Proof. destruct q; [done|]. apply grows_by_keeps. Qed.

End Evolution.

(** ** The file operations *)

Section Operations.

Implicit Types (fs : filesys) (p q src dst : path).

Lemma makedirs_go_grows done todo fs :
  grows_by (made_for (done ++ todo)) fs (state_of (Os.makedirs_go done todo fs)).
Proof.
  revert done fs. induction todo as [|c rest IH]; intros done fs; simpl.
  - apply grows_by_refl.
  - specialize (IH (done ++ [c])). rewrite <- !app_assoc in IH. simpl in IH.
    destruct (Fs.find fs (done ++ [c])) as [[|]|] eqn:E.
    + apply grows_by_refl.
    + apply IH.
    + eapply grows_by_trans; [|apply IH].
      apply grows_by_append; [done|]. split; [done|].
      exists rest. by rewrite <- app_assoc.
Qed.

(** [os.makedirs] only adds directories, on the way to [p]. *)
Lemma makedirs_grows p fs : grows_by (made_for p) fs (state_of (Os.makedirs p fs)).
Proof. apply (makedirs_go_grows [] p). Qed.

Lemma makedirs_go_isdir done c rest fs fs' :
  Os.makedirs_go done (c :: rest) fs = Ok () fs' ->
  Fs.find fs' (done ++ c :: rest) = Some Dir.
Proof.
  revert done c fs. induction rest as [|c' rest IH]; intros done c fs; simpl.
  - destruct (Fs.find fs (done ++ [c])) as [[|]|] eqn:E; intros [= <-]; [done|].
    rewrite find_app_last, E. by rewrite decide_True.
  - destruct (Fs.find fs (done ++ [c])) as [[|]|] eqn:E; [done| |];
      intros H; apply IH in H; by rewrite <- app_assoc in H.
Qed.

(** After [os.makedirs(p)] returns, [p] is a directory. *)
Lemma makedirs_isdir p fs fs' :
  Os.makedirs p fs = Ok () fs' -> Fs.node_at fs' p = Some Dir.
Proof.
  destruct p as [|c rest]; [done|]. intros H.
  by apply (makedirs_go_isdir []) in H.
Qed.

(** The two ways [copy_if_absent] returns. *)
Lemma copy_if_absent_ok src dst fs fs' :
  copy_if_absent src dst fs = Ok () fs' ->
  (Fs.exists_ fs dst = true /\ fs' = fs)
  \/ (Fs.node_at fs dst = None
      /\ exists c, Fs.node_at fs src = Some (File c)
                   /\ fs' = Fs.write fs dst (File c)).
Proof.
  unfold copy_if_absent, Os.path_exists, Os.copy, Fs.isdir, Fs.exists_. unfold_M.
  destruct (Fs.node_at fs dst) as [n|] eqn:Edst; [intros [= <-]; by left|].
  cbv zeta. rewrite !Edst.
  destruct (Fs.node_at fs src) as [[c|]|] eqn:Esrc; simpl;
    try (by destruct (bool_decide (src = dst))).
  destruct (bool_decide (src = dst)); [done|].
  destruct (Fs.node_at fs (dirname dst)) as [[|]|]; [done| |done].
  intros [= <-]. right. eauto.
Qed.



Lemma copy_if_absent_grows src dst fs :
  grows_by (fun q n => q = dst /\ exists c, n = File c
                       /\ Fs.node_at fs src = Some (File c))
    fs (state_of (copy_if_absent src dst fs)).
Proof.
  destruct (copy_if_absent src dst fs) as [[] fs'|e fs'] eqn:E.
  - apply copy_if_absent_ok in E as [[_ ->]|(Hdst & c & Hsrc & ->)];
      [apply grows_by_refl|]. simpl.
    destruct dst as [|x dst]; [done|].
    apply grows_by_write; [done | eauto].
  - assert (fs' = fs) as ->; [|apply grows_by_refl].
    revert E. unfold copy_if_absent, Os.path_exists, Os.copy. unfold_M.
    destruct (Fs.exists_ fs dst); [done|].
    repeat (match goal with
            | |- context [match ?x with _ => _ end] => destruct x
            | |- context [if ?x then _ else _] => destruct x
            end; try congruence).
Qed.

(** What [shutil.copy2] has done when it returns. *)
Lemma copy2_ok src dst fs fs' :
  Os.copy2 src dst fs = Ok () fs' ->
  exists c,
    Fs.node_at fs src = Some (File c)
    /\ fs' = Fs.write fs (if Fs.isdir fs dst then dst ++ [basename src] else dst)
               (File c).
Proof.
  unfold Os.copy2, Os.copy.
  set (dst' := if Fs.isdir fs dst then dst ++ [basename src] else dst).
  destruct (Fs.exists_ fs src && bool_decide (src = dst')); [done|].
  destruct (Fs.node_at fs src) as [[c|]|]; [|done|done].
  destruct (Fs.node_at fs dst') as [[|]|];
    destruct (Fs.node_at fs (dirname dst')) as [[|]|]; try done;
    intros [= <-]; eauto.
Qed.

(** [shutil.copy2] of a directory raises. *)
Lemma copy2_directory src dst fs :
  Fs.node_at fs src = Some Dir ->
  (if Fs.isdir fs dst then dst ++ [basename src] else dst) <> src ->
  Os.copy2 src dst fs = Raise IsADirectoryError fs.
Proof.
  intros Hsrc Hne. unfold Os.copy2, Os.copy.
  rewrite bool_decide_eq_false_2, andb_false_r; [|congruence].
  by rewrite Hsrc.
Qed.

End Operations.

(** ** The loop over the scene objects *)

Lemma fold_add_entry_within (all_files l : list path) (ix0 ix : file_index) :
  fold_res add_entry ix0 l = Val ix ->
  index_within ix0 all_files ->
  (forall f, f ∈ l -> f ∈ all_files) ->
  index_within ix all_files.
Proof.
  revert ix0. induction l as [|x l IH]; intros ix0 Hfold H0 Hl; simpl in Hfold.
  - by injection Hfold as <-.
  - unfold_M. destruct (add_entry ix0 x) as [ix1|] eqn:E; [|done].
    apply (IH ix1 Hfold); [|intros f Hf; apply Hl; by right].
    unfold add_entry in E.
    destruct (negb (PyStr.contains "entry" (path_str x))); [by injection E as <-|].
    unfold_M. destruct (entry_index x) as [idx|]; [|done]. injection E as <-.
    intros k f. simpl. rewrite lookup_insert.
    destruct (decide (idx = k)); [|apply H0].
    intros [= <-]. apply Hl. by left.
Qed.

Lemma build_file_index_within (all_files : list path) (ix : file_index) :
  build_file_index all_files = Val ix -> index_within ix all_files.
Proof.
  intros H. apply (fold_add_entry_within all_files all_files _ _ H); [|done].
  intros k f. simpl. by rewrite lookup_empty.
Qed.

Lemma find_res_elem {A} (p : A -> res bool) (l : list A) (x : A) :
  find_res p l = Val (Some x) -> x ∈ l.
Proof.
  induction l as [|y l IH]; simpl; [done|]. unfold_M.
  destruct (p y) as [[]|]; [|intros H; right; by apply IH|done].
  intros [= <-]. by left.
Qed.

Lemma find_elem {A} (p : A -> bool) (l : list A) (x : A) :
  List.find p l = Some x -> x ∈ l.
Proof. intros [H _]%find_some. by apply list_elem_of_In. Qed.

Lemma resolve_texture_within (all_files : list path) (ix : file_index)
    (hx : hash_index) (material_filename : path) (v : json) (f : path) :
  index_within ix all_files ->
  f ∈ resolve_texture all_files ix hx material_filename v ->
  f ∈ all_files.
Proof.
  intros Hix. unfold resolve_texture.
  destruct (texture_by_index all_files ix hx v) as [found|e] eqn:E.
  - revert E. unfold texture_by_index. unfold_M.
    destruct (Py.key_of v) as [k|]; [|done].
    destruct (map_hash2idx hx !! k) as [idx|].
    + intros [= <-]. destruct (map_idx2filename ix !! Z.of_nat idx) as [g|] eqn:Eg;
        simpl; [|by intros ?%elem_of_nil].
      intros ->%list_elem_of_singleton. by apply (Hix _ _ Eg).
    + unfold search_by_name. unfold_M.
      destruct (find_res (hash_in_image_path v) all_files) as [[g|]|] eqn:Eg;
        [| |done]; intros [= <-]; simpl; [|by intros ?%elem_of_nil].
      intros ->%list_elem_of_singleton. by apply (find_res_elem _ _ _ Eg).
  - unfold texture_nearby.
    destruct (List.find (is_nearby_image ix material_filename) all_files) as [g|] eqn:Eg;
      simpl; [|by intros ?%elem_of_nil].
    intros ->%list_elem_of_singleton. by apply (find_elem _ _ _ Eg).
Qed.

Lemma resolve_textures_within (all_files : list path) (ix : file_index)
    (hx : hash_index) (material_filename : path) (vs : list json) (f : path) :
  index_within ix all_files ->
  f ∈ resolve_textures all_files ix hx material_filename vs ->
  f ∈ all_files.
Proof.
  intros Hix. unfold resolve_textures. rewrite list_elem_of_In, in_flat_map.
  intros (v & _ & Hf). apply list_elem_of_In in Hf.
  by apply (resolve_texture_within _ _ _ _ _ _ Hix Hf).
Qed.

Lemma ensures_makedirs (p : path) (fs : filesys) :
  ensures (Os.makedirs p) fs
    (fun _ fs' => grows_by (made_for p) fs fs' /\ Fs.node_at fs' p = Some Dir).
Proof.
  unfold ensures. pose proof (makedirs_grows p fs) as Hg.
  destruct (Os.makedirs p fs) as [[] fs'|] eqn:E; [|done].
  split; [done|]. by apply (makedirs_isdir _ _ _ E).
Qed.

Lemma ensures_copy_if_absent (src dst : path) (fs : filesys) :
  ensures (copy_if_absent src dst) fs
    (fun _ fs' =>
       grows_by (fun q n => q = dst /\ exists c, n = File c
                            /\ Fs.node_at fs src = Some (File c)) fs fs'
       /\ Fs.exists_ fs' dst = true).
Proof.
  unfold ensures. pose proof (copy_if_absent_grows src dst fs) as Hg.
  destruct (copy_if_absent src dst fs) as [[] fs'|] eqn:E; [|done].
  split; [done|].
  apply copy_if_absent_ok in E as [[H ->]|(Hdst & c & Hsrc & ->)]; [done|].
  unfold Fs.exists_. destruct dst as [|x dst]; [done|].
  simpl. rewrite find_write. by rewrite decide_True.
Qed.

Section InstanceGrowth.

Variable all_files : list path.
Variable ix : file_index.
Variable hx : hash_index.
Variable instances_dir : path.
Variable fs1 : filesys.
Hypothesis ix_within : index_within ix all_files.

#[local] Abbreviation entry := (instance_entry all_files instances_dir fs1).

Lemma instance_entry_anything fs fs' :
  grows_by entry fs fs' -> grows_by anything fs fs'.
Proof. by apply grows_by_mono. Qed.

(** One guarded copy into an instance directory. *)
Lemma copy_into_instance (i : string) (src : path) (fs0 fs : filesys) :
  src ∈ all_files ->
  grows_by anything fs1 fs0 ->
  grows_by entry fs0 fs ->
  ensures (copy_if_absent src ((instances_dir ++ [i]) ++ [basename src])) fs
    (fun _ fs' => grows_by entry fs0 fs').
Proof.
  intros Hsrc H10 H0. eapply ensures_mono; [apply ensures_copy_if_absent|].
  intros _ fs' [Hg _]. eapply grows_by_trans; [done|].
  eapply grows_by_mono; [|done]. intros q n (-> & c & -> & Hc).
  right. exists src, i. rewrite <- app_assoc. repeat split; [done| |done].
  intros Hdir.
  pose proof (grows_by_node_at _ _ _ _ _
                (grows_by_trans _ _ _ _ H10 (instance_entry_anything _ _ H0)) Hdir).
  congruence.
Qed.

(** The body of the loop only adds entries, and only instance entries. *)
Lemma organize_instance_grows (inst : nat * path) (fs0 fs : filesys) :
  inst.2 ∈ all_files ->
  grows_by anything fs1 fs0 ->
  grows_by entry fs0 fs ->
  ensures (organize_instance all_files ix hx instances_dir inst) fs
    (fun _ fs' => grows_by entry fs0 fs').
Proof.
  destruct inst as [inst_id gf]. simpl. intros Hgf H10 H0.
  unfold organize_instance. apply ensures_bind.
  apply (ensures_read (fun fs => read_json fs gf)).
  destruct (read_json fs gf) as [gameobject|]; [|by apply ensures_ret].
  apply ensures_bind, ensures_lift. intros mesh_hash _.
  apply ensures_bind, ensures_lift. intros material_hash _.
  apply ensures_bind, ensures_lift. intros mesh_idx _.
  apply ensures_bind, ensures_lift. intros mesh_filename Hmesh.
  apply ensures_bind, ensures_lift. intros material_idx _.
  apply ensures_bind, ensures_lift. intros material_filename Hmat.
  apply ensures_bind.
  apply (ensures_read (fun fs => read_json fs material_filename)).
  apply ensures_bind, ensures_lift. intros texture_hashes _.
  assert (Hmeshf : mesh_filename ∈ all_files).
  { unfold idx2filename in Hmesh.
    destruct (map_idx2filename ix !! Z.of_nat mesh_idx) eqn:E; [|done].
    injection Hmesh as <-. by apply (ix_within _ _ E). }
  assert (Hmatf : material_filename ∈ all_files).
  { unfold idx2filename in Hmat.
    destruct (map_idx2filename ix !! Z.of_nat material_idx) eqn:E; [|done].
    injection Hmat as <-. by apply (ix_within _ _ E). }
  apply ensures_bind.
  eapply ensures_mono; [apply ensures_makedirs|].
  intros ? fs2 [Hg2 _].
  assert (H2 : grows_by entry fs0 fs2).
  { eapply grows_by_trans; [done|]. eapply grows_by_mono; [|done].
    intros q n [-> Hq]. left. eauto. }
  apply ensures_bind.
  eapply ensures_mono; [by apply copy_into_instance|].
  intros ? fs3 H3. apply ensures_bind.
  eapply ensures_mono; [by apply copy_into_instance|].
  intros ? fs4 H4. apply ensures_bind.
  eapply ensures_mono; [by apply copy_into_instance|].
  intros ? fs5 H5.
  apply (ensures_for_each _ (fun fs' => grows_by entry fs0 fs')); [|done].
  intros texture_filename fs6 Hin H6. apply copy_into_instance; [|done..].
  by apply (resolve_textures_within _ _ _ _ _ _ ix_within Hin).
Qed.

End InstanceGrowth.

Lemma bind_ok_inv {A B} (m : M A) (f : A -> M B) fs b fs' :
  (m ≫= f) fs = Ok b fs' ->
  exists a fs1, m fs = Ok a fs1 /\ f a fs1 = Ok b fs'.
Proof. unfold_M. destruct (m fs) as [a fs1|]; [eauto | done]. Qed.

Lemma enumerate_elem {A} (l : list A) (x : nat * A) : x ∈ enumerate l -> x.2 ∈ l.
Proof. destruct x as [i a]. unfold enumerate. apply elem_of_zip_r. Qed.

Lemma gameobject_files_listed (all_files : list path) (f : path) :
  f ∈ gameobject_files_of all_files -> f ∈ all_files.
Proof.
  unfold gameobject_files_of. rewrite !list_elem_of_In, filter_In. tauto.
Qed.

(** The loop over the scene objects only adds instance entries. *)
Lemma instance_loop_grows (all_files : list path) (ix : file_index)
    (hx : hash_index) (instances_dir : path) (fs1 : filesys) :
  index_within ix all_files ->
  ensures (for_each (organize_instance all_files ix hx instances_dir)
             (enumerate (gameobject_files_of all_files))) fs1
    (fun _ fs2 => grows_by (instance_entry all_files instances_dir fs1) fs1 fs2).
Proof.
  intros Hix.
  apply (ensures_for_each _
           (fun fs2 => grows_by (instance_entry all_files instances_dir fs1) fs1 fs2));
    [|apply grows_by_refl].
  intros inst fs Hin Hg. apply organize_instance_grows; [done| |apply grows_by_refl|done].
  by apply gameobject_files_listed, enumerate_elem.
Qed.

(** ** The assigned files *)

Section AssignedFacts.

Variable input_dir : path.
Variable instances_dir : path.

Lemma claim_files_spec (fs : filesys) (assigned : gset path) (names : list string) :
  ensures (fold_each (claim_file input_dir) assigned names) fs
    (fun assigned' fs' =>
       fs' = fs
       /\ forall f, f ∈ assigned' <->
            f ∈ assigned \/ exists name, name ∈ names /\ f = input_dir ++ [name]).
Proof.
  apply (ensures_fold_each_visited _
           (fun pre assigned' fs' =>
              fs' = fs
              /\ forall f, f ∈ assigned' <->
                   f ∈ assigned \/ exists name, name ∈ pre /\ f = input_dir ++ [name])).
  - intros pre name post a1 fs1 _ [-> Ha1]. unfold claim_file.
    apply ensures_bind.
    apply (ensures_read (fun fs => Fs.exists_ fs (input_dir ++ [name]))).
    apply ensures_ret. split; [done|]. intros f.
    assert (Hf : f ∈ ({[input_dir ++ [name]]} ∪ a1 : gset path) <->
                 f ∈ assigned
                 \/ exists name', name' ∈ pre ++ [name] /\ f = input_dir ++ [name']).
    { rewrite elem_of_union, elem_of_singleton, Ha1. split.
      - intros [->|[?|(n & Hn & ->)]]; [right|by left|right].
        + exists name. split; [|done]. apply elem_of_app. right. by left.
        + exists n. split; [|done]. apply elem_of_app. by left.
      - intros [?|(n & Hn & ->)]; [by right; left|].
        apply elem_of_app in Hn as [Hn|Hn%list_elem_of_singleton].
        + right. right. eauto.
        + left. by subst. }
    simpl basename.
    destruct (Fs.exists_ fs (input_dir ++ [name])); [|done].
    rewrite elem_of_union, Hf, elem_of_singleton. split; [|by right].
    intros [->|?]; [|done]. right. exists name. split; [|done].
    apply elem_of_app. right. by left.
  - split; [done|]. intros f. split; [by left|].
    by intros [?|(n & ?%elem_of_nil & _)].
Qed.

(** The assigned files are the paths of the input directory whose name
    is listed in an instance directory of this run; the file system is
    only read. *)
Lemma collect_assigned_spec (n : nat) (fs : filesys) :
  ensures (collect_assigned input_dir instances_dir n) fs
    (fun assigned fs' =>
       fs' = fs
       /\ forall f, f ∈ assigned <->
            exists i name,
              (i < n)%nat /\ f = input_dir ++ [name]
              /\ inside fs (instances_dir ++ [instance_name i]) name).
Proof.
  unfold collect_assigned.
  eapply ensures_mono.
  - apply (ensures_fold_each_visited _
             (fun pre (assigned : gset path) fs' =>
                fs' = fs
                /\ forall f, f ∈ assigned <->
                     exists i name,
                       i ∈ pre /\ f = input_dir ++ [name]
                       /\ inside fs (instances_dir ++ [instance_name i]) name)).
    + intros pre i post a1 fs1 _ [-> Ha1]. unfold claim_instance.
      apply ensures_bind.
      apply (ensures_read
               (fun fs => Fs.exists_ fs (instances_dir ++ [instance_name i]))).
      unfold Fs.exists_.
      destruct (Fs.node_at fs (instances_dir ++ [instance_name i])) as [nd|] eqn:End.
      * apply ensures_bind, ensures_listdir. intros Hdir.
        eapply ensures_mono; [apply claim_files_spec|].
        intros a2 fs2 [-> Ha2]. split; [done|]. intros f.
        rewrite Ha2, Ha1. split.
        -- intros [(j & name & Hj & -> & Hin)|(name & Hname & ->)].
           ++ exists j, name. split; [|done]. apply elem_of_app. by left.
           ++ exists i, name. split; [|done]. apply elem_of_app. right. by left.
        -- intros (j & name & Hj & -> & Hin).
           apply elem_of_app in Hj as [Hj|Hj%list_elem_of_singleton].
           ++ left. eauto.
           ++ subst j. right. exists name. split; [|done]. apply Hin.
      * apply ensures_ret. split; [done|]. intros f. rewrite Ha1. split.
        -- intros (j & name & Hj & -> & Hin). exists j, name.
           split; [|done]. apply elem_of_app. by left.
        -- intros (j & name & Hj & -> & Hin).
           apply elem_of_app in Hj as [Hj|Hj%list_elem_of_singleton]; [eauto|].
           subst j. destruct Hin as [Hdir _]. congruence.
    + split; [done|]. intros f. split; [by intros ?%elem_of_empty|].
      by intros (j & name & ?%elem_of_nil & _).
  - intros assigned fs' [-> Ha]. split; [done|]. intros f. rewrite Ha.
    split; intros (i & name & Hi & Hrest); exists i, name; split; try done.
    + apply elem_of_seq in Hi. lia.
    + apply elem_of_seq. lia.
Qed.

End AssignedFacts.

(** ** The unassigned sweep *)

Section SweepFacts.

Variable output_dir : path.
Variable assigned : gset path.

#[local] Abbreviation sweep :=
  (place_unassigned (unassigned_of output_dir) assigned).

(** The two ways the body of the sweep returns. *)
Lemma place_unassigned_ok (f : path) (fs fs' : filesys) :
  sweep f fs = Ok () fs' ->
  ((f ∈ assigned) /\ fs' = fs)
  \/ ((f ∉ assigned)
      /\ exists c,
           Fs.node_at fs f = Some (File c)
           /\ fs' = Fs.write fs
                      (if Fs.isdir fs (unassigned_dest output_dir f)
                       then unassigned_dest output_dir f ++ [basename f]
                       else unassigned_dest output_dir f)
                      (File c)).
Proof.
  unfold place_unassigned. case_bool_decide as Hin.
  - intros [= <-]. by left.
  - intros (c & Hc & ->)%copy2_ok. right. eauto.
Qed.

(** An unassigned file is copied whether or not its destination
    exists. *)
Lemma place_unassigned_overwrites (f : path) (fs : filesys) (c : content) :
  f ∉ assigned ->
  Fs.node_at fs f = Some (File c) ->
  Fs.node_at fs (bucket_dir output_dir (file_type (basename f))) = Some Dir ->
  Fs.isdir fs (unassigned_dest output_dir f) = false ->
  f <> unassigned_dest output_dir f ->
  sweep f fs = Ok () (Fs.write fs (unassigned_dest output_dir f) (File c)).
Proof.
  intros Hin Hf Hdir Hdst Hne. unfold place_unassigned.
  rewrite bool_decide_eq_false_2; [|done].
  unfold Os.copy2, Os.copy. fold (bucket_dir output_dir (file_type (basename f))).
  fold (unassigned_dest output_dir f). rewrite Hdst.
  rewrite bool_decide_eq_false_2, andb_false_r; [|done]. rewrite Hf.
  unfold Fs.isdir in Hdst. unfold dirname, unassigned_dest.
  rewrite removelast_snoc, Hdir.
  fold (unassigned_dest output_dir f).
  by destruct (Fs.node_at fs (unassigned_dest output_dir f)) as [[|]|].
Qed.

(** A directory among the listed files that is not assigned stops the
    sweep. *)
Lemma sweep_stops_at_directory (l : list path) (d : path) (fs : filesys) :
  d ∈ l ->
  d ∉ assigned ->
  Fs.node_at fs d = Some Dir ->
  (forall rest, d <> unassigned_of output_dir ++ rest) ->
  exists e fs', for_each sweep l fs = Raise e fs'.
Proof.
  intros Hin Hd Hdir Hout. revert fs Hdir.
  induction l as [|x l IH]; intros fs Hdir; [by apply elem_of_nil in Hin|].
  simpl. destruct (sweep x fs) as [[] fs1|e fs1] eqn:E.
  - rewrite (bind_ok _ _ _ _ _ E).
    apply place_unassigned_ok in E as [[Hx ->]|(Hx & c & Hc & ->)].
    + apply elem_of_cons in Hin as [->|Hin]; [done|]. by apply IH.
    + apply elem_of_cons in Hin as [->|Hin]; [congruence|].
      apply IH; [done|]. destruct d as [|y d]; [done|]. simpl in *.
      rewrite find_write, decide_False; [done|].
      unfold unassigned_dest, bucket_dir.
      destruct (Fs.isdir _ _); rewrite <- ?app_assoc; apply not_eq_sym, Hout.
  - rewrite (bind_raise _ _ _ _ _ E). eauto.
Qed.


End SweepFacts.

(** The sweep writes in the unassigned part of the output only. *)
Lemma sweep_changes_unassigned (out : path) (assigned : gset path)
    (l : list path) (fs : filesys) :
  ensures (for_each (place_unassigned (unassigned_of out) assigned) l) fs
    (fun _ fs' =>
       changes (fun q n => exists rest, q = unassigned_of out ++ rest) fs fs').
Proof.
  apply (ensures_for_each _
           (fun fs' => changes (fun q n => exists rest, q = unassigned_of out ++ rest)
                         fs fs')); [|apply changes_refl].
  intros f fs1 _ Hch. unfold ensures.
  destruct (place_unassigned (unassigned_of out) assigned f fs1) as [[] fs2|] eqn:E;
    [|done].
  apply place_unassigned_ok in E as [[_ ->]|(_ & c & _ & ->)]; [done|].
  eapply changes_trans; [done|]. apply changes_write.
  unfold unassigned_dest, bucket_dir.
  destruct (Fs.isdir fs1 _); rewrite <- ?app_assoc; eauto.
Qed.

(** ** Discovery of the files *)

Lemma prefix_of_skeleton (output_dir q p : path) (x y : string) :
  q `prefix_of` p -> p `prefix_of` (output_dir ++ [x; y]) ->
  exists x y, q `prefix_of` (output_dir ++ [x; y]).
Proof. intros H1 H2. exists x, y. by etrans. Qed.

Lemma for_each_makedirs_grows (output_dir : path) (l : list path) (fs : filesys) :
  (forall p, p ∈ l -> exists x y, p `prefix_of` (output_dir ++ [x; y])) ->
  ensures (for_each Os.makedirs l) fs
    (fun _ fs' =>
       grows_by (output_skeleton output_dir) fs fs'
       /\ forall p, p ∈ l -> Fs.node_at fs' p = Some Dir).
Proof.
  intros Hl.
  eapply ensures_mono.
  - apply (ensures_for_each_visited _
             (fun pre fs' =>
                grows_by (output_skeleton output_dir) fs fs'
                /\ forall p, p ∈ pre -> Fs.node_at fs' p = Some Dir)).
    + intros pre p post fs1 Hp [Hg Hpre].
      eapply ensures_mono; [apply ensures_makedirs|].
      intros ? fs2 [Hg2 Hdir].
      assert (Hg12 : grows_by (output_skeleton output_dir) fs1 fs2).
      { eapply grows_by_mono; [|done]. intros q n [-> Hq]. split; [done|].
        destruct (Hl p) as (x & y & Hxy).
        { rewrite Hp. apply elem_of_app. right. by left. }
        by apply (prefix_of_skeleton _ _ p x y). }
      split; [by eapply grows_by_trans|]. intros p' Hp'.
      apply elem_of_app in Hp' as [Hp'|Hp'%list_elem_of_singleton].
      * by apply (grows_by_node_at _ _ _ _ _ Hg12), Hpre.
      * by subst.
    + split; [apply grows_by_refl|]. by intros p ?%elem_of_nil.
  - intros ? fs' [Hg Hall]. by split.
Qed.

(** What [discover_files] has done when it returns: the output
    directory and the four buckets exist, only directories of the output
    skeleton were added, and the listed files are the entries of the
    input directory, the new ones included. *)
Lemma discover_files_spec (input_dir output_dir : path) (fs : filesys) :
  ensures (discover_files input_dir output_dir) fs
    (fun all_files fs1 =>
       grows_by (output_skeleton output_dir) fs fs1
       /\ Fs.node_at fs1 output_dir = Some Dir
       /\ (forall b, Fs.node_at fs1 (bucket_dir output_dir b) = Some Dir)
       /\ all_files = map (fun name => input_dir ++ [name]) (Fs.entries fs1 input_dir)).
Proof.
  unfold discover_files. apply ensures_bind.
  eapply ensures_mono; [apply ensures_makedirs|]. intros ? fs1 [Hg1 Hd1].
  apply ensures_bind.
  eapply ensures_mono; [apply ensures_makedirs|]. intros ? fs2 [Hg2 _].
  apply ensures_bind.
  eapply ensures_mono; [apply ensures_makedirs|]. intros ? fs3 [Hg3 _].
  apply ensures_bind.
  eapply ensures_mono;
    [apply (for_each_makedirs_grows output_dir)|].
  { intros p (b & -> & _)%list_elem_of_fmap. exists "unassigned", (bucket_name b).
    unfold bucket_dir, unassigned_of. by rewrite <- app_assoc. }
  intros ? fs4 [Hg4 Hb4]. apply ensures_bind, ensures_listdir. intros _.
  apply ensures_ret.
  assert (H1 : grows_by (output_skeleton output_dir) fs fs1).
  { eapply grows_by_mono; [|done]. intros q n [-> Hq]. split; [done|].
    exists "", "". etrans; [done|]. by exists ["";""]. }
  assert (H2 : grows_by (output_skeleton output_dir) fs1 fs2).
  { eapply grows_by_mono; [|done]. intros q n [-> Hq]. split; [done|].
    exists "instances", "". etrans; [done|]. unfold instances_of.
    exists [""]. by rewrite <- app_assoc. }
  assert (H3 : grows_by (output_skeleton output_dir) fs2 fs3).
  { eapply grows_by_mono; [|done]. intros q n [-> Hq]. split; [done|].
    exists "unassigned", "". etrans; [done|]. unfold unassigned_of.
    exists [""]. by rewrite <- app_assoc. }
  assert (H14 : grows_by (output_skeleton output_dir) fs1 fs4).
  { eapply grows_by_trans; [done|]. by eapply grows_by_trans. }
  split; [by eapply grows_by_trans|]. split; [|split; [|done]].
  - by apply (grows_by_node_at _ _ _ _ _ H14).
  - intros b. apply Hb4. apply list_elem_of_fmap. exists b. split; [done|].
    destruct b; set_solver.
Qed.

Lemma load_header_ok (all_files : list path) (fs fs' : filesys) (h : json) :
  load_header all_files fs = Ok h fs' -> fs' = fs.
Proof.
  unfold load_header, safe_read_json. unfold_M.
  destruct (find_header all_files); [|done].
  destruct (read_json fs p); [|done]. by intros [= _ <-].
Qed.

(** ** The exit status *)

Lemma exit_status_zero (a : args) (fs : filesys) : exit_status a fs = 0%Z.
Proof.
  unfold exit_status, script. unfold_M.
  by destruct (main a fs).
Qed.

(** C1. The exit status of the organizer is 0 whatever happened: the
    value [main] returns is never passed to [sys.exit], and every
    exception is caught by the entry guard. In batch mode a folder that
    is not a directory makes [main] return 1, in single-directory mode a
    missing input directory makes [main] raise, and in both cases the
    process still exits with 0. *)
Theorem exit_status_ignores_failed_units :
  (forall a fs, exit_status a fs = 0%Z)
  /\ main_result (FileList (Some [["missing"]]) false) Scenario.base = Some 1%Z
  /\ exit_status (FileList (Some [["missing"]]) false) Scenario.base = 0%Z
  /\ main_result (Input ["missing"] (Some ["out"]) false) Scenario.base = None
  /\ exit_status (Input ["missing"] (Some ["out"]) false) Scenario.base = 0%Z.
Proof.
  split; [apply exit_status_zero|].
  repeat split; vm_compute; reflexivity.
Qed.

(** ** Unresolved references of a scene object *)

Section InstanceFailures.

Variable all_files : list path.
Variable ix : file_index.
Variable hx : hash_index.
Variable instances_dir : path.

#[local] Abbreviation step := (organize_instance all_files ix hx instances_dir).

(** A record without the mesh key raises [KeyError] and leaves the loop
    body; nothing is skipped. *)
Lemma instance_without_mesh_key (inst_id : nat) (gf : path) (fs : filesys)
    (kv : list (string * json)) :
  read_json fs gf = Some (JObj kv) ->
  Py.assoc "1_UnityEngine.MeshFilter" kv = None ->
  step (inst_id, gf) fs = Raise KeyError fs.
Proof.
  intros Hread Hkey. unfold organize_instance, safe_read_json. unfold_M.
  rewrite Hread. simpl. by rewrite Hkey.
Qed.

Lemma instance_without_renderer_key (inst_id : nat) (gf : path) (fs : filesys)
    (kv : list (string * json)) (mesh_hash : json) :
  read_json fs gf = Some (JObj kv) ->
  Py.assoc "1_UnityEngine.MeshFilter" kv = Some mesh_hash ->
  Py.assoc "2_UnityEngine.MeshRenderer" kv = None ->
  step (inst_id, gf) fs = Raise KeyError fs.
Proof.
  intros Hread Hmesh Hkey. unfold organize_instance, safe_read_json. unfold_M.
  rewrite Hread. simpl. by rewrite Hmesh, Hkey.
Qed.

(** A mesh checksum that is not a key of [map_hash2idx], or whose
    ordinal is not a key of [map_idx2filename], raises [KeyError]. *)
Lemma instance_with_unresolved_mesh (inst_id : nat) (gf : path) (fs : filesys)
    (gameobject mesh_hash material_hash : json) :
  read_json fs gf = Some gameobject ->
  Py.getitem gameobject "1_UnityEngine.MeshFilter" = Val mesh_hash ->
  (Py.getitem gameobject "2_UnityEngine.MeshRenderer" ≫= Py.getitem0)
    = Val material_hash ->
  (hash2idx hx mesh_hash ≫= idx2filename ix) = Exc KeyError ->
  step (inst_id, gf) fs = Raise KeyError fs.
Proof.
  intros Hread Hmesh Hmat Hres. unfold organize_instance, safe_read_json.
  unfold_M. rewrite Hread. simpl. rewrite Hmesh. simpl.
  destruct (Py.getitem gameobject "2_UnityEngine.MeshRenderer") as [r|]; [|done].
  rewrite Hmat.
  destruct (hash2idx hx mesh_hash) as [i|]; simpl in *; [|by inversion Hres].
  by rewrite Hres.
Qed.

Lemma instance_with_unresolved_material (inst_id : nat) (gf : path) (fs : filesys)
    (gameobject mesh_hash material_hash : json) (mesh_filename : path) :
  read_json fs gf = Some gameobject ->
  Py.getitem gameobject "1_UnityEngine.MeshFilter" = Val mesh_hash ->
  (Py.getitem gameobject "2_UnityEngine.MeshRenderer" ≫= Py.getitem0)
    = Val material_hash ->
  (hash2idx hx mesh_hash ≫= idx2filename ix) = Val mesh_filename ->
  (hash2idx hx material_hash ≫= idx2filename ix) = Exc KeyError ->
  step (inst_id, gf) fs = Raise KeyError fs.
Proof.
  intros Hread Hmesh Hmat Hres1 Hres2. unfold organize_instance, safe_read_json.
  unfold_M. rewrite Hread. simpl. rewrite Hmesh. simpl.
  destruct (Py.getitem gameobject "2_UnityEngine.MeshRenderer") as [r|]; [|done].
  rewrite Hmat.
  destruct (hash2idx hx mesh_hash) as [i|]; simpl in *; [|done].
  rewrite Hres1.
  destruct (hash2idx hx material_hash) as [j|]; simpl in *; [|by inversion Hres2].
  by rewrite Hres2.
Qed.

End InstanceFailures.

(** C2. A scene object whose mesh checksum is absent from the manifest,
    or whose material checksum has an ordinal without an entry file, is
    not skipped: the lookup raises [KeyError], the run of the directory
    ends there, the scene object listed after it gets no instance
    directory, and the batch driver counts the directory as failed. *)
Theorem unresolved_checksum_aborts_run :
  raised (Scenario.run Scenario.unresolved_mesh) = Some KeyError
  /\ Fs.exists_ (state_of (Scenario.run Scenario.unresolved_mesh))
       (Scenario.instance_path 1 []) = false
  /\ returned (Scenario.batch Scenario.unresolved_mesh) = Some 1%Z
  /\ raised (Scenario.run Scenario.unbacked_material) = Some KeyError
  /\ Fs.exists_ (state_of (Scenario.run Scenario.unbacked_material))
       (Scenario.instance_path 1 []) = false
  /\ returned (Scenario.batch Scenario.unbacked_material) = Some 1%Z.
Proof. repeat split; vm_compute; reflexivity. Qed.

(** C3. A scene object without the mesh key or without the renderer key
    is not skipped: the subscript raises [KeyError], the run of the
    directory ends there, the scene object listed after it gets no
    instance directory, and the batch driver reports failure. *)
Theorem missing_component_key_aborts_run :
  raised (Scenario.run Scenario.no_renderer_key) = Some KeyError
  /\ Fs.exists_ (state_of (Scenario.run Scenario.no_renderer_key))
       (Scenario.instance_path 1 []) = false
  /\ returned (Scenario.batch Scenario.no_renderer_key) = Some 1%Z
  /\ raised (Scenario.run Scenario.no_mesh_key) = Some KeyError
  /\ Fs.exists_ (state_of (Scenario.run Scenario.no_mesh_key))
       (Scenario.instance_path 1 []) = false
  /\ returned (Scenario.batch Scenario.no_mesh_key) = Some 1%Z.
Proof. repeat split; vm_compute; reflexivity. Qed.

(** ** Running twice *)

(** The guarded copies of the loop over the scene objects leave every
    entry that exists as it is. *)
Lemma instance_loop_keeps_existing (all_files : list path) (ix : file_index)
    (hx : hash_index) (instances_dir : path) (fs fs' : filesys) (q : path) (n : node) :
  build_file_index all_files = Val ix ->
  for_each (organize_instance all_files ix hx instances_dir)
    (enumerate (gameobject_files_of all_files)) fs = Ok () fs' ->
  Fs.find fs q = Some n ->
  Fs.find fs' q = Some n.
Proof.
  intros Hix Hloop. apply (grows_by_keeps (instance_entry all_files instances_dir fs)).
  exact (ensures_ok _ _ _ _ _ Hloop
           (instance_loop_grows all_files ix hx instances_dir fs
              (build_file_index_within _ _ Hix))).
Qed.

(** C4. Materialization is idempotent for the instance directories only.
    A second run on the unchanged output reproduces the same tree, and
    the guarded copies into the instance directories leave what exists
    alone: a mesh copy edited by hand survives the second run. The sweep
    is not guarded: in the second run its step for [header.json] is the
    call of [shutil.copy2] although the destination exists, and the copy
    of [header.json] in the bucket, edited by hand, is overwritten with
    the input file. *)
Theorem second_run_overwrites_unassigned :
  Scenario.run Scenario.first_run = Ok Scenario.output_dir Scenario.first_run
  /\ Fs.exists_ Scenario.first_run (Scenario.bucket_path other "header.json") = true
  /\ place_unassigned (unassigned_of Scenario.output_dir) Scenario.assigned_again
       (Scenario.input_dir ++ ["header.json"]) Scenario.first_run
     = Os.copy2 (Scenario.input_dir ++ ["header.json"])
         (Scenario.bucket_path other "header.json") Scenario.first_run
  /\ raised (Scenario.run Scenario.edited) = None
  /\ Fs.find (state_of (Scenario.run Scenario.edited))
       (Scenario.instance_path 0 ["entry_0_x.obj"]) = Some (File (Blob "edited"))
  /\ Fs.find Scenario.edited (Scenario.bucket_path other "header.json")
     = Some (File (Blob "edited"))
  /\ Fs.find (state_of (Scenario.run Scenario.edited))
       (Scenario.bucket_path other "header.json")
     = Some (File (Scenario.header ["A1"; "B2"])).
Proof.
  repeat (refine (conj _ _); [vm_compute; reflexivity|]). vm_compute. reflexivity.
Qed.

(** ** The manifest *)

Lemma find_header_none (all_files : list path) :
  forallb (fun g => negb (is_header g)) all_files = true ->
  find_header all_files = None.
Proof.
  unfold find_header. induction all_files as [|g l IH]; simpl; [done|].
  intros [Hg Hl]%andb_true_iff. apply negb_true_iff in Hg. rewrite Hg. auto.
Qed.

Lemma find_header_first (pre post : list path) (f : path) :
  forallb (fun g => negb (is_header g)) pre = true ->
  is_header f = true ->
  find_header (pre ++ f :: post) = Some f.
Proof.
  unfold find_header. intros Hpre Hf.
  induction pre as [|g l IH]; simpl in *; [by rewrite Hf|].
  apply andb_true_iff in Hpre as [Hg Hl]. apply negb_true_iff in Hg.
  rewrite Hg. auto.
Qed.

(** C5, as the code has it. The manifest is the first listed file whose
    path ends with [header.json], whatever its name is and however many
    such files follow it. Loading raises [ValueError] when no path has
    that ending, and when the chosen file does not parse; otherwise it
    yields the chosen document. *)
Theorem manifest_is_first_suffix_match (pre post : list path) (f : path)
    (fs : filesys) :
  forallb (fun g => negb (is_header g)) pre = true ->
  is_header f = true ->
  (exists s, path_str f = s +:+ "header.json")
  /\ load_header pre fs = Raise ValueError fs
  /\ (read_json fs f = None ->
      load_header (pre ++ f :: post) fs = Raise ValueError fs)
  /\ (forall h, read_json fs f = Some h ->
      load_header (pre ++ f :: post) fs = Ok h fs).
Proof.
  intros Hpre Hf. split; [by apply endswith_spec|].
  unfold load_header, safe_read_json. unfold_M.
  rewrite (find_header_none _ Hpre), (find_header_first _ post _ Hpre Hf).
  repeat split; [|intros h]; by intros ->.
Qed.

Lemma manifest_is_first_suffix_match_witness :
  let f := Scenario.input_dir ++ ["old_header.json"] in
  let g := Scenario.input_dir ++ ["header.json"] in
  load_header [f; g] Scenario.two_manifests
  = Ok (JObj [("assets", JArr (map Scenario.asset ["A1"; "B2"]))])
       Scenario.two_manifests.
Proof.
  intros f g.
  apply (manifest_is_first_suffix_match [] [g] f Scenario.two_manifests);
    reflexivity.
Defined.

(** C5, as stated, fails: a file that is not named [header.json] is
    taken as the manifest, and a second candidate is no error. *)
Lemma first_of_two_manifests_is_loaded :
  let all_files := Scenario.listed Scenario.two_manifests in
  let chosen := Scenario.input_dir ++ ["old_header.json"] in
  find_header all_files = Some chosen
  /\ Claimed.is_manifest chosen = false
  /\ Claimed.find_manifest all_files = Some (Scenario.input_dir ++ ["header.json"])
  /\ List.length (List.filter is_header all_files) = 2%nat
  /\ raised (Scenario.run Scenario.two_manifests) = None
  /\ Fs.exists_ (state_of (Scenario.run Scenario.two_manifests))
       (Scenario.instance_path 0 ["entry_0_x.obj"]) = true.
Proof. repeat split; vm_compute; reflexivity. Qed.

(** ** The partition of the input files *)



Section Partition.

Variable input_dir : path.
Variable out : path.





End Partition.




(** ** Texture resolution *)

Lemma find_res_pure {A} (p : A -> res bool) (q : A -> bool) (l : list A) :
  (forall x, p x = Val (q x)) -> find_res p l = Val (List.find q l).
Proof.
  intros Hp. induction l as [|x l IH]; simpl; [done|].
  rewrite Hp. unfold_M. by destruct (q x).
Qed.

Lemma search_by_name_string (all_files : list path) (h : string) :
  search_by_name all_files (JStr h) =
  Val (option_list
         (List.find (fun f => PyStr.contains h (path_str f)
                              && looks_like_image (path_str f)) all_files)).
Proof.
  unfold search_by_name.
  by rewrite (find_res_pure _ (fun f => PyStr.contains h (path_str f)
                                        && looks_like_image (path_str f))).
Qed.

(** The order of the lookups, as the code has it. For a texture
    reference that is a string without an entry in the checksum index,
    the resolver takes the first listed file whose path holds the
    reference and looks like an image, and nothing when there is none:
    the scan by proximity is not tried. That scan is the exception
    handler of the lookup. It runs exactly when the lookup raises, which
    a string never does, and it accepts the first image whose entry
    index is less than ten away from the index of the material. *)
Lemma texture_fallback_order (all_files : list path) (ix : file_index)
    (hx : hash_index) (material_filename : path) (h : string) :
  map_hash2idx hx !! KStr h = None ->
  resolve_texture all_files ix hx material_filename (JStr h)
  = option_list
      (List.find (fun f => PyStr.contains h (path_str f)
                           && looks_like_image (path_str f)) all_files)
  /\ (forall v found,
        texture_by_index all_files ix hx v = Val found ->
        resolve_texture all_files ix hx material_filename v = found)
  /\ (forall v e,
        texture_by_index all_files ix hx v = Exc e ->
        (forall s, v <> JStr s)
        /\ resolve_texture all_files ix hx material_filename v
           = option_list (List.find (is_nearby_image ix material_filename) all_files))
  /\ (forall f,
        is_nearby_image ix material_filename f = true ->
        (Z.abs (default 0 (map_filename2idx ix !! material_filename)
                - default 0 (map_filename2idx ix !! f)) < 10)%Z).
Proof.
  intros Hnone. repeat split.
  - unfold resolve_texture, texture_by_index. simpl. unfold_M. rewrite Hnone.
    by rewrite search_by_name_string.
  - intros v found H. unfold resolve_texture. by rewrite H.
  - intros s ->. revert H. unfold texture_by_index. simpl. unfold_M.
    destruct (map_hash2idx hx !! KStr s); [done|].
    by rewrite search_by_name_string.
  - unfold resolve_texture. by rewrite H.
  - intros f [_ H]%andb_true_iff. by apply Z.ltb_lt in H.
Qed.

Lemma texture_fallback_order_witness :
  let fs := Scenario.named_texture in
  resolve_texture (Scenario.listed fs) (Scenario.index_of fs)
    (Scenario.hashes_of ["A1"; "B2"]) (Scenario.input_dir ++ ["entry_1_x.json"])
    (JStr "T9")
  = [Scenario.input_dir ++ ["T9_diffuse.png"]].
Proof.
  intros fs.
  rewrite (proj1 (texture_fallback_order (Scenario.listed fs) (Scenario.index_of fs)
                    (Scenario.hashes_of ["A1"; "B2"])
                    (Scenario.input_dir ++ ["entry_1_x.json"]) "T9" eq_refl)).
  reflexivity.
Defined.

(** The scan by proximity never follows a scan by name that found
    nothing: for a string reference the lookup returns, with the file
    found by name or with nothing, and the handler that holds the scan
    by proximity is not entered. *)
Lemma string_reference_never_raises (all_files : list path) (ix : file_index)
    (hx : hash_index) (h : string) :
  exists found, texture_by_index all_files ix hx (JStr h) = Val found.
Proof.
  unfold texture_by_index. simpl. unfold_M.
  destruct (map_hash2idx hx !! KStr h); [by eexists|].
  rewrite search_by_name_string. by eexists.
Qed.

(** C7. The fallback by proximity is in the code and cannot be reached
    after a scan by name that found nothing. The material of the
    scenario refers to the checksum [T9]: the index has no entry for
    it, no path holds it, and the image [entry_3_skin.png] lies two
    entries from the material [entry_1_x.json]. The chain of the
    specification takes that image; the code leaves the slot out (the
    lookup returns nothing and does not raise, so the handler with the
    scan by proximity is not entered), the run completes, the instance
    directory does not receive the image and the sweep puts it into the
    texture bucket. *)
Theorem proximity_is_not_the_next_fallback :
  let fs := Scenario.lonely_texture in
  let material := Scenario.input_dir ++ ["entry_1_x.json"] in
  let image := Scenario.input_dir ++ ["entry_3_skin.png"] in
  map_hash2idx (Scenario.hashes_of ["A1"; "B2"]) !! KStr "T9" = None
  /\ List.find (fun f => PyStr.contains "T9" (path_str f)
                         && looks_like_image (path_str f)) (Scenario.listed fs)
     = None
  /\ is_nearby_image (Scenario.index_of fs) material image = true
  /\ Claimed.resolve_texture (Scenario.listed fs) (Scenario.index_of fs)
       (Scenario.hashes_of ["A1"; "B2"]) material "T9" = [image]
  /\ texture_by_index (Scenario.listed fs) (Scenario.index_of fs)
       (Scenario.hashes_of ["A1"; "B2"]) (JStr "T9") = Val []
  /\ resolve_texture (Scenario.listed fs) (Scenario.index_of fs)
       (Scenario.hashes_of ["A1"; "B2"]) material (JStr "T9") = []
  /\ raised (Scenario.run fs) = None
  /\ Fs.exists_ (state_of (Scenario.run fs))
       (Scenario.instance_path 0 ["entry_3_skin.png"]) = false
  /\ Fs.exists_ (state_of (Scenario.run fs))
       (Scenario.bucket_path texture "entry_3_skin.png") = true.
Proof.
  repeat (refine (conj _ _); [vm_compute; reflexivity|]). vm_compute. reflexivity.
Qed.

(** When the scan by proximity does run (the reference [5] is not a
    string, and the lookup raises) an image exactly ten entries away is
    outside its window. *)
Example proximity_window_is_strict :
  let fs := Scenario.far_image in
  let material := Scenario.input_dir ++ ["entry_1_x.json"] in
  let far := Scenario.input_dir ++ ["entry_11_far.png"] in
  resolve_texture (Scenario.listed fs) (Scenario.index_of fs)
    (Scenario.hashes_of ["A1"; "B2"]) material (JInt 5) = []
  /\ is_nearby_image (Scenario.index_of fs) material far = false
  /\ Claimed.within_window (Scenario.index_of fs) material far = true.
Proof.
  repeat (refine (conj _ _); [vm_compute; reflexivity|]). vm_compute. reflexivity.
Qed.

(** ** An instance whose material does not parse *)


Lemma read_json_is_file (fs : filesys) (f : path) (v : json) :
  read_json fs f = Some v -> Fs.node_at fs f = Some (File (Json v)).
Proof.
  unfold read_json. destruct (Fs.node_at fs f) as [[[[]|]|]|]; congruence.
Qed.




(** ** The index of entry files *)

Lemma fold_res_raises {A S} (f : S -> A -> res S) (x : A) (l : list A) (s : S) :
  In x l ->
  (forall s', exists e, f s' x = Exc e) ->
  exists e, fold_res f s l = Exc e.
Proof.
  intros Hin Hx. revert s. induction l as [|y l IH]; intros s; [done|].
  simpl. unfold_M. destruct Hin as [-> | Hin].
  - destruct (Hx s) as [e ->]. eauto.
  - destruct (f s y) as [s'|e]; [by apply IH | eauto].
Qed.



(** What [int()] takes for white space: a blank is skipped, the file
    separator (code 28) is not; an underscore may stand between two
    digits. *)
Example int_accepts :
  PyStr.to_int " +12 " = Some 12%Z
  /\ PyStr.to_int "-007" = Some (-7)%Z
  /\ PyStr.to_int "1_0" = Some 10%Z
  /\ PyStr.to_int (String (ascii_of_nat 28) "5") = None
  /\ PyStr.to_int "1__0" = None
  /\ PyStr.to_int "+ 5" = None
  /\ PyStr.to_int "12a" = None
  /\ PyStr.to_int EmptyString = None.
Proof. repeat split; reflexivity. Qed.




(** The same for an input directory whose own name holds [entry]: the
    manifest is taken for an entry file and has no marker. *)
Example directory_named_entry_aborts :
  raised (organize_crp_assets Scenario.entry_dir (Some Scenario.output_dir) false
            Scenario.in_entry_dir) = Some IndexError.
Proof. vm_compute. reflexivity. Qed.


(** ** Directories among the listed files *)

Section DirectoryInInput.

Variable input_dir : path.
Variable out : path.

Lemma listed_in_input (fs fs1 : filesys) (all_files : list path) :
  discover_files input_dir out fs = Ok all_files fs1 ->
  grows_by (output_skeleton out) fs fs1
  /\ Fs.node_at fs1 out = Some Dir
  /\ (forall name, input_dir ++ [name] ∈ all_files
                   <-> is_Some (Fs.find fs1 (input_dir ++ [name])))
  /\ (forall f, f ∈ all_files -> exists name, f = input_dir ++ [name]).
Proof.
  intros Hd.
  destruct (ensures_ok _ _ _ _ _ Hd (discover_files_spec input_dir out fs))
    as (Hg & Hdir & _ & ->).
  repeat split; [done..| | |].
  - intros (name' & Heq & Hin)%list_elem_of_fmap.
    apply app_inv_head in Heq as [= <-]. by apply entries_spec.
  - intros Hsome. apply list_elem_of_fmap. exists name. split; [done|].
    by apply entries_spec.
  - intros f (name & -> & _)%list_elem_of_fmap. eauto.
Qed.

Lemma no_skeleton_in_instance (i name : string) (n : node) :
  ~ output_skeleton out (instances_of out ++ [i; name]) n.
Proof.
  intros (_ & x & y & k & Hk). unfold instances_of in Hk.
  rewrite <- !app_assoc in Hk. by apply app_inv_head in Hk.
Qed.

(** No file is copied into an instance directory under the name of a
    directory of the input. *)
Lemma no_instance_entry_for_directory (all_files : list path) (fs1 : filesys)
    (i name : string) (n : node) :
  (forall f, f ∈ all_files -> exists name, f = input_dir ++ [name]) ->
  Fs.node_at fs1 (input_dir ++ [name]) = Some Dir ->
  ~ instance_entry all_files (instances_of out) fs1
      (instances_of out ++ [i; name]) n.
Proof.
  intros Hall Hdir [(_ & j & k & Hk)|(src & j & Hq & Hsrc & Hnd & _)].
  - rewrite <- app_assoc in Hk. by apply app_inv_head in Hk.
  - apply app_inv_head in Hq. injection Hq as _ Hbase.
    destruct (Hall src Hsrc) as [name' ->]. rewrite basename_snoc in Hbase.
    by subst name'.
Qed.

(** A listed directory that no instance directory holds by name, and
    that does not lie in the unassigned part of the output, ends the
    run. *)
Lemma listed_directory_aborts (fs fs1 : filesys) (all_files : list path)
    (name : string) :
  discover_files input_dir out fs = Ok all_files fs1 ->
  Fs.find fs1 (input_dir ++ [name]) = Some Dir ->
  (forall rest, input_dir ++ [name] <> unassigned_of out ++ rest) ->
  (forall i, Fs.find fs (instances_of out ++ [i; name]) = None) ->
  exists e fs', organize_files input_dir out all_files fs1 = Raise e fs'.
Proof.
  intros Hd Hdir Hout Hfresh.
  destruct (listed_in_input _ _ _ Hd) as (Hg1 & _ & Hlisted & Hall).
  assert (Hin : input_dir ++ [name] ∈ all_files).
  { apply Hlisted. by rewrite Hdir. }
  assert (Hnode : Fs.node_at fs1 (input_dir ++ [name]) = Some Dir).
  { by rewrite node_at_below. }
  unfold organize_files.
  destruct (build_file_index all_files) as [ix|e] eqn:Hix; [|by eexists _, _].
  rewrite (bind_lift (Val ix) _ _ ix eq_refl).
  destruct (load_header all_files fs1) as [header fs1'|e fs1'] eqn:Hh;
    [|rewrite (bind_raise _ _ _ _ _ Hh); eauto].
  rewrite (bind_ok _ _ _ _ _ Hh). apply load_header_ok in Hh as ->.
  destruct (build_hash_index header) as [hx|e] eqn:Hhx; [|by eexists _, _].
  rewrite (bind_lift (Val hx) _ _ hx eq_refl). cbv zeta.
  destruct (for_each (organize_instance all_files ix hx (instances_of out))
              (enumerate (gameobject_files_of all_files)) fs1)
    as [[] fs2|e fs2] eqn:Hloop;
    [|rewrite (bind_raise _ _ _ _ _ Hloop); eauto].
  rewrite (bind_ok _ _ _ _ _ Hloop).
  pose proof (ensures_ok _ _ _ _ _ Hloop
                (instance_loop_grows all_files ix hx (instances_of out) fs1
                   (build_file_index_within _ _ Hix))) as Hg2.
  destruct (collect_assigned input_dir (instances_of out)
              (List.length (gameobject_files_of all_files)) fs2)
    as [assigned fs2'|e fs2'] eqn:Hcol;
    [|rewrite (bind_raise _ _ _ _ _ Hcol); eauto].
  rewrite (bind_ok _ _ _ _ _ Hcol).
  destruct (ensures_ok _ _ _ _ _ Hcol
              (collect_assigned_spec input_dir (instances_of out) _ fs2))
    as [-> Hassigned].
  apply (sweep_stops_at_directory out assigned all_files (input_dir ++ [name]) fs2);
    [done| | |done].
  - rewrite Hassigned. intros (i & name' & _ & Hname & _ & Hentry).
    apply app_inv_head in Hname as [= <-].
    apply entries_spec in Hentry. rewrite <- app_assoc in Hentry. simpl in Hentry.
    rewrite (grows_by_frame _ _ _ _ Hg2) in Hentry;
      [|intros n; by apply no_instance_entry_for_directory].
    rewrite (grows_by_frame _ _ _ _ Hg1) in Hentry;
      [|intros n; apply no_skeleton_in_instance].
    rewrite Hfresh in Hentry. by destruct Hentry.
  - by apply (grows_by_node_at _ _ _ _ _ Hg2).
Qed.

End DirectoryInInput.

(** When the run gets as far as the turn of such a directory in the
    sweep, the step of the sweep is the copy of the directory, and the
    copy raises. *)
Lemma sweep_copies_listed_directory (input_dir out : path)
    (fs fs1 fs2 fs3 : filesys) (all_files pre post : list path)
    (ix : file_index) (header : json) (hx : hash_index) (assigned : gset path)
    (name : string) :
  let d := input_dir ++ [name] in
  discover_files input_dir out fs = Ok all_files fs1 ->
  Fs.find fs1 d = Some Dir ->
  (forall rest, d <> unassigned_of out ++ rest) ->
  (forall i, Fs.find fs (instances_of out ++ [i; name]) = None) ->
  build_file_index all_files = Val ix ->
  load_header all_files fs1 = Ok header fs1 ->
  build_hash_index header = Val hx ->
  for_each (organize_instance all_files ix hx (instances_of out))
    (enumerate (gameobject_files_of all_files)) fs1 = Ok () fs2 ->
  collect_assigned input_dir (instances_of out)
    (List.length (gameobject_files_of all_files)) fs2 = Ok assigned fs2 ->
  all_files = pre ++ d :: post ->
  for_each (place_unassigned (unassigned_of out) assigned) pre fs2 = Ok () fs3 ->
  (d ∉ assigned)
  /\ place_unassigned (unassigned_of out) assigned d fs3
     = Os.copy2 d (unassigned_dest out d) fs3
  /\ Os.copy2 d (unassigned_dest out d) fs3 = Raise IsADirectoryError fs3
  /\ organize_files input_dir out all_files fs1 = Raise IsADirectoryError fs3.
Proof.
  intros d Hd Hdir Hout Hfresh Hix Hh Hhx Hloop Hcol Hall Hpre.
  destruct (listed_in_input _ _ _ _ _ Hd) as (Hg1 & _ & _ & Hlisted).
  pose proof (ensures_ok _ _ _ _ _ Hloop
                (instance_loop_grows all_files ix hx (instances_of out) fs1
                   (build_file_index_within _ _ Hix))) as Hg2.
  destruct (ensures_ok _ _ _ _ _ Hcol
              (collect_assigned_spec input_dir (instances_of out) _ fs2))
    as [_ Hassigned].
  pose proof (ensures_ok _ _ _ _ _ Hpre
                (sweep_changes_unassigned out assigned pre fs2)) as Hch.
  simpl in Hg2, Hch.
  assert (Hnode1 : Fs.node_at fs1 d = Some Dir) by (unfold d; by rewrite node_at_below).
  assert (Hnot : d ∉ assigned).
  { rewrite Hassigned. intros (i & name' & _ & Hname & _ & Hentry).
    apply app_inv_head in Hname as [= <-].
    apply entries_spec in Hentry. rewrite <- app_assoc in Hentry. simpl in Hentry.
    rewrite (grows_by_frame _ _ _ _ Hg2) in Hentry;
      [|intros n; by apply (no_instance_entry_for_directory input_dir out)].
    rewrite (grows_by_frame _ _ _ _ Hg1) in Hentry;
      [|intros n; apply (no_skeleton_in_instance out)].
    rewrite Hfresh in Hentry. by destruct Hentry. }
  assert (Hnode3 : Fs.node_at fs3 d = Some Dir).
  { unfold d. rewrite node_at_below.
    rewrite (changes_frame _ _ _ _ Hch); [|intros n [rest Hrest]; by apply (Hout rest)].
    apply (grows_by_keeps _ _ _ _ _ Hg2). done. }
  assert (Hstep : place_unassigned (unassigned_of out) assigned d fs3
                  = Os.copy2 d (unassigned_dest out d) fs3).
  { unfold place_unassigned. by rewrite bool_decide_eq_false_2. }
  assert (Hcopy : Os.copy2 d (unassigned_dest out d) fs3 = Raise IsADirectoryError fs3).
  { apply copy2_directory; [done|].
    unfold unassigned_dest, bucket_dir.
    destruct (Fs.isdir fs3 _); rewrite <- ?app_assoc; apply not_eq_sym, Hout. }
  repeat split; [done..|].
  assert (Hsweep : for_each (place_unassigned (unassigned_of out) assigned) all_files fs2
                   = Raise IsADirectoryError fs3).
  { rewrite Hall. apply (for_each_raise_at _ _ _ _ _ _ _ _ Hpre). by rewrite Hstep. }
  unfold organize_files.
  rewrite (bind_lift _ _ _ _ Hix), (bind_ok _ _ _ _ _ Hh), (bind_lift _ _ _ _ Hhx).
  cbv zeta. by rewrite (bind_ok _ _ _ _ _ Hloop), (bind_ok _ _ _ _ _ Hcol).
Qed.

(** C10, as the code has it. Every entry of the input directory is
    listed, directories included, and with the default output location
    the directory [organized] is made inside the input directory before
    the listing. Such a directory ([organized] under the default
    location, or any directory [name] the input directory holds, outside
    the unassigned part of the output) is one of the listed files. When
    no instance directory holds an entry of that name, the directory is
    a file of no instance and the run never completes. When the run
    gets as far as the turn of the directory in the sweep (the indexes
    are built, the loop over the scene objects and the sweep of the
    files listed before it return), the step of the sweep is the call of
    [shutil.copy2] on the directory, which raises [IsADirectoryError],
    and the run ends with that exception. *)
Theorem directory_in_input_aborts_run (input_dir : path)
    (output_dir : option path) (verbose : bool) (fs : filesys) (name : string) :
  let out := default (default_output input_dir) output_dir in
  let d := input_dir ++ [name] in
  (output_dir = None /\ name = "organized")
  \/ (Fs.find fs d = Some Dir
      /\ forall rest, d <> unassigned_of out ++ rest) ->
  (forall i, Fs.find fs (instances_of out ++ [i; name]) = None) ->
  (forall all_files fs1,
      discover_files input_dir out fs = Ok all_files fs1 ->
      d ∈ all_files /\ Fs.node_at fs1 d = Some Dir)
  /\ (exists e fs', organize_crp_assets input_dir output_dir verbose fs = Raise e fs')
  /\ (forall all_files fs1 ix header hx fs2 assigned pre post fs3,
        discover_files input_dir out fs = Ok all_files fs1 ->
        build_file_index all_files = Val ix ->
        load_header all_files fs1 = Ok header fs1 ->
        build_hash_index header = Val hx ->
        for_each (organize_instance all_files ix hx (instances_of out))
          (enumerate (gameobject_files_of all_files)) fs1 = Ok () fs2 ->
        collect_assigned input_dir (instances_of out)
          (List.length (gameobject_files_of all_files)) fs2 = Ok assigned fs2 ->
        all_files = pre ++ d :: post ->
        for_each (place_unassigned (unassigned_of out) assigned) pre fs2 = Ok () fs3 ->
        (d ∉ assigned)
        /\ place_unassigned (unassigned_of out) assigned d fs3
           = Os.copy2 d (unassigned_dest out d) fs3
        /\ Os.copy2 d (unassigned_dest out d) fs3 = Raise IsADirectoryError fs3
        /\ organize_crp_assets input_dir output_dir verbose fs
           = Raise IsADirectoryError fs3).
Proof.
  intros out d Hwhich Hfresh. subst d.
  assert (Hdisc : forall all_files fs1,
             discover_files input_dir out fs = Ok all_files fs1 ->
             Fs.find fs1 (input_dir ++ [name]) = Some Dir
             /\ forall rest, input_dir ++ [name] <> unassigned_of out ++ rest).
  { intros all_files fs1 Hd.
    destruct (listed_in_input _ _ _ _ _ Hd) as (Hg1 & Hdir & _).
    destruct Hwhich as [[-> ->]|[Hsub Hout]].
    - split.
      + simpl in out. unfold default_output in out, Hdir.
        unfold out in Hdir. by rewrite node_at_below in Hdir.
      + intros rest Hrest. apply (f_equal List.length) in Hrest.
        unfold out, unassigned_of, default_output in Hrest. simpl in Hrest.
        rewrite !length_app in Hrest. simpl in Hrest. lia.
    - split; [|done]. by apply (grows_by_keeps _ _ _ _ _ Hg1). }
  split; [|split].
  - intros all_files fs1 Hd. destruct (Hdisc _ _ Hd) as [Hdir _].
    destruct (listed_in_input _ _ _ _ _ Hd) as (_ & _ & Hlisted & _).
    split; [apply Hlisted; by rewrite Hdir | by rewrite node_at_below].
  - unfold organize_crp_assets. fold out.
    destruct (discover_files input_dir out fs) as [all_files fs1|e fs1] eqn:Hd;
      [|rewrite (bind_raise _ _ _ _ _ Hd); eauto].
    rewrite (bind_ok _ _ _ _ _ Hd). destruct (Hdisc _ _ eq_refl) as [Hdir Hout].
    destruct (listed_directory_aborts input_dir out fs fs1 all_files name
                Hd Hdir Hout Hfresh) as (e & fs' & Hr).
    rewrite (bind_raise _ _ _ _ _ Hr). eauto.
  - intros all_files fs1 ix header hx fs2 assigned pre post fs3
      Hd Hix Hh Hhx Hloop Hcol Hall Hpre.
    destruct (Hdisc _ _ Hd) as [Hdir Hout].
    destruct (sweep_copies_listed_directory input_dir out fs fs1 fs2 fs3 all_files
                pre post ix header hx assigned name
                Hd Hdir Hout Hfresh Hix Hh Hhx Hloop Hcol Hall Hpre)
      as (Hnot & Hstep & Hcopy & Hfiles).
    repeat split; [done..|].
    unfold organize_crp_assets. fold out.
    rewrite (bind_ok _ _ _ _ _ Hd). by rewrite (bind_raise _ _ _ _ _ Hfiles).
Qed.

Lemma directory_in_input_aborts_run_witness :
  exists fs3,
    organize_crp_assets Scenario.input_dir None false Scenario.end_to_end
    = Raise IsADirectoryError fs3.
Proof.
  pose (out := default_output Scenario.input_dir).
  pose (fs1 := state_of (discover_files Scenario.input_dir out Scenario.end_to_end)).
  pose (all_files := Scenario.listed fs1).
  pose (ix := Scenario.index_of fs1).
  pose (hx := Scenario.hashes_of ["A1"; "B2"]).
  pose (fs2 := state_of (for_each (organize_instance all_files ix hx (instances_of out))
                           (enumerate (gameobject_files_of all_files)) fs1)).
  pose (assigned := default (∅ : gset path)
                      (returned (collect_assigned Scenario.input_dir (instances_of out)
                                   (List.length (gameobject_files_of all_files)) fs2))).
  pose (pre := take 4 all_files).
  pose (fs3 := state_of (for_each (place_unassigned (unassigned_of out) assigned)
                           pre fs2)).
  exists fs3.
  refine (proj2 (proj2 (proj2
            (proj2 (proj2 (directory_in_input_aborts_run Scenario.input_dir None false
                             Scenario.end_to_end "organized" _ _))
               all_files fs1 ix (JObj [("assets", JArr (map Scenario.asset ["A1"; "B2"]))])
               hx fs2 assigned pre [] fs3 _ _ _ _ _ _ _ _)))).
  - left. split; reflexivity.
  - intros i. reflexivity.
  - vm_compute. reflexivity.
  - vm_compute. reflexivity.
  - vm_compute. reflexivity.
  - vm_compute. reflexivity.
  - vm_compute. reflexivity.
  - change (collect_assigned Scenario.input_dir (instances_of out)
              (List.length (gameobject_files_of all_files)) fs2 = Ok assigned fs2).
    pose proof (collect_assigned_spec Scenario.input_dir (instances_of out)
                  (List.length (gameobject_files_of all_files)) fs2) as Hs.
    assert (Hr : raised (collect_assigned Scenario.input_dir (instances_of out)
                           (List.length (gameobject_files_of all_files)) fs2) = None)
      by (vm_compute; reflexivity).
    unfold assigned, ensures in *.
    destruct (collect_assigned Scenario.input_dir (instances_of out)
                (List.length (gameobject_files_of all_files)) fs2)
      as [a fsa|e fsa]; [|discriminate Hr].
    destruct Hs as [-> _]. reflexivity.
  - vm_compute. reflexivity.
  - vm_compute. reflexivity.
Defined.

(** C10, as stated, fails. The default output directory is there from
    an earlier run and the directory of instance 0 holds an entry named
    [organized]. The directory [organized] is listed as an input file,
    but its name is found in an instance directory, so it counts as
    assigned: the sweep does not copy it and the run completes. *)
Lemma stale_instance_entry_hides_directory :
  let fs := Scenario.stale_instance_entry in
  let out := default_output Scenario.input_dir in
  let run := organize_crp_assets Scenario.input_dir None false fs in
  Fs.find fs out = Some Dir
  /\ returned (discover_files Scenario.input_dir out fs)
     = Some (map (fun name => Scenario.input_dir ++ [name])
               ["header.json"; "entry_0_x.obj"; "entry_1_x.json";
                "entry_2_GameObject.json"; "organized"])
  /\ raised run = None
  /\ returned run = Some out
  /\ Fs.entries (state_of run) (instances_of out ++ [instance_name 0])
     = ["organized"; "entry_2_GameObject.json"; "entry_0_x.obj"; "entry_1_x.json"]
  /\ map (fun b => Fs.entries (state_of run) (bucket_dir out b)) buckets
     = [[]; []; []; ["header.json"]].
Proof.
  repeat (refine (conj _ _); [vm_compute; reflexivity|]). vm_compute. reflexivity.
Qed.


(** * Further properties *)

(** ** The batch driver *)

Lemma process_folder_returns (verbose : bool) (counts : nat * nat)
    (folder_path : path) (fs : filesys) :
  exists counts' fs',
    process_folder verbose counts folder_path fs = Ok counts' fs'
    /\ (counts'.1 + counts'.2 = S (counts.1 + counts.2))%nat
    /\ (counts.2 <= counts'.2)%nat.
Proof.
  destruct counts as [s f]. unfold process_folder, Os.path_isdir. unfold_M.
  destruct (Fs.isdir fs folder_path); simpl.
  - destruct (organize_crp_assets folder_path (Some (organized_sibling folder_path))
                verbose fs) as [out fs'|e fs'].
    + exists (S s, f), fs'. simpl. repeat split; lia.
    + exists (s, S f), fs'. simpl. repeat split; lia.
  - exists (s, S f), fs. simpl. repeat split; lia.
Qed.

Lemma process_folders_return (verbose : bool) (folders : list path)
    (counts : nat * nat) (fs : filesys) :
  exists counts' fs',
    fold_each (process_folder verbose) counts folders fs = Ok counts' fs'
    /\ (counts'.1 + counts'.2 = counts.1 + counts.2 + List.length folders)%nat
    /\ (counts.2 <= counts'.2)%nat.
Proof.
  revert counts fs. induction folders as [|x l IH]; intros counts fs.
  - exists counts, fs. simpl. repeat split; lia.
  - destruct (process_folder_returns verbose counts x fs) as (c1 & fs1 & H1 & Hsum & Hle).
    destruct (IH c1 fs1) as (c2 & fs2 & H2 & Hsum2 & Hle2).
    exists c2, fs2. simpl. rewrite (bind_ok _ _ _ _ _ H1).
    split; [done|]. simpl. split; lia.
Qed.

(** The batch driver never raises, whatever the folders hold: every
    folder is counted once, as a success or as a failure, and the value
    returned is 0 when no folder failed and 1 otherwise. *)
Theorem batch_driver_counts_every_folder (folders : list path) (verbose : bool)
    (fs : filesys) :
  exists success_count failure_count fs',
    fold_each (process_folder verbose) (0%nat, 0%nat) folders fs
      = Ok (success_count, failure_count) fs'
    /\ (success_count + failure_count = List.length folders)%nat
    /\ process_crp_folders (Some folders) verbose fs
       = Ok (if (failure_count =? 0)%nat then 0%Z else 1%Z) fs'.
Proof.
  destruct (process_folders_return verbose folders (0%nat, 0%nat) fs)
    as ([s f] & fs' & Hfold & Hsum & _).
  exists s, f, fs'. split; [done|]. split; [simpl in Hsum; lia|].
  unfold process_crp_folders. by rewrite (bind_ok _ _ _ _ _ Hfold).
Qed.

Lemma fold_each_app {A S} (body : S -> A -> M S) (s : S) (l1 l2 : list A)
    (fs : filesys) :
  fold_each body s (l1 ++ l2) fs =
  match fold_each body s l1 fs with
  | Ok s1 fs1 => fold_each body s1 l2 fs1
  | Raise e fs1 => Raise e fs1
  end.
Proof.
  revert s fs. induction l1 as [|x l1 IH]; intros s fs; simpl; [done|].
  unfold_M. destruct (body s x fs); [apply IH | done].
Qed.

(** A listed folder that is not a directory when its turn comes (in
    the state [fs1] the folders listed before it have left) makes the
    batch return 1, whatever the folders before and after it do. *)
Theorem batch_fails_on_missing_folder (pre : list path) (folder : path)
    (post : list path) (verbose : bool) (fs fs1 : filesys) (counts : nat * nat) :
  fold_each (process_folder verbose) (0%nat, 0%nat) pre fs = Ok counts fs1 ->
  Fs.isdir fs1 folder = false ->
  exists fs',
    process_crp_folders (Some (pre ++ folder :: post)) verbose fs = Ok 1%Z fs'.
Proof.
  intros Hpre Hdir. destruct counts as [s0 f0].
  assert (H1 : process_folder verbose (s0, f0) folder fs1 = Ok (s0, S f0) fs1).
  { unfold process_folder, Os.path_isdir. unfold_M. by rewrite Hdir. }
  destruct (process_folders_return verbose post (s0, S f0) fs1)
    as ([s f] & fs' & Hfold & _ & Hle).
  assert (Hall : fold_each (process_folder verbose) (0%nat, 0%nat)
                   (pre ++ folder :: post) fs = Ok (s, f) fs').
  { rewrite fold_each_app, Hpre.
    change (fold_each (process_folder verbose) (s0, f0) (folder :: post))
      with (process_folder verbose (s0, f0) folder
            ≫= fun s' => fold_each (process_folder verbose) s' post).
    by rewrite (bind_ok _ _ _ _ _ H1). }
  exists fs'. unfold process_crp_folders. rewrite (bind_ok _ _ _ _ _ Hall).
  simpl in *. destruct f; [lia | done].
Qed.

Lemma batch_fails_on_missing_folder_witness :
  exists fs',
    process_crp_folders
      (Some ([Scenario.input_dir] ++ ["missing"] :: [Scenario.input_dir])) false
      Scenario.end_to_end = Ok 1%Z fs'.
Proof.
  apply (batch_fails_on_missing_folder [Scenario.input_dir] ["missing"]
           [Scenario.input_dir] false Scenario.end_to_end
           (state_of (fold_each (process_folder false) (0%nat, 0%nat)
                        [Scenario.input_dir] Scenario.end_to_end))
           (1%nat, 0%nat)).
  - vm_compute. reflexivity.
  - vm_compute. reflexivity.
Defined.

(** ** What a complete run leaves and adds *)

(** The phases of a run that returns. *)
Lemma run_phases (input_dir : path) (output_dir : option path) (verbose : bool)
    (fs fs' : filesys) (result : path) :
  let out := default (default_output input_dir) output_dir in
  organize_crp_assets input_dir output_dir verbose fs = Ok result fs' ->
  exists all_files fs1 ix header hx fs2 assigned,
    discover_files input_dir out fs = Ok all_files fs1
    /\ build_file_index all_files = Val ix
    /\ load_header all_files fs1 = Ok header fs1
    /\ build_hash_index header = Val hx
    /\ for_each (organize_instance all_files ix hx (instances_of out))
         (enumerate (gameobject_files_of all_files)) fs1 = Ok () fs2
    /\ collect_assigned input_dir (instances_of out)
         (List.length (gameobject_files_of all_files)) fs2 = Ok assigned fs2
    /\ for_each (place_unassigned (unassigned_of out) assigned) all_files fs2
       = Ok () fs'
    /\ result = out.
Proof.
  intros out Hrun. unfold organize_crp_assets in Hrun. fold out in Hrun.
  apply bind_ok_inv in Hrun as (all_files & fs1 & Hd & Hrun).
  apply bind_ok_inv in Hrun as ([] & fsz & Hfiles & Hret).
  injection Hret as <- ->.
  unfold organize_files in Hfiles.
  apply bind_ok_inv in Hfiles as (ix0 & fsa & Hix & Hfiles).
  destruct (build_file_index all_files) as [ix|] eqn:Eix; [|done].
  injection Hix as <- <-.
  apply bind_ok_inv in Hfiles as (header & fsb & Hh & Hfiles).
  pose proof (load_header_ok _ _ _ _ Hh) as ->.
  apply bind_ok_inv in Hfiles as (hx0 & fsc & Hhx & Hfiles).
  destruct (build_hash_index header) as [hx|] eqn:Ehx; [|done].
  injection Hhx as <- <-. cbv zeta in Hfiles.
  apply bind_ok_inv in Hfiles as ([] & fs2 & Hloop & Hfiles).
  apply bind_ok_inv in Hfiles as (assigned & fs2a & Hcol & Hsweep).
  destruct (ensures_ok _ _ _ _ _ Hcol
              (collect_assigned_spec input_dir (instances_of out) _ fs2))
    as [-> _].
  by exists all_files, fs1, ix, header, hx, fs2, assigned.
Qed.

Lemma prefix_of_app_cases (q a b : path) :
  q `prefix_of` (a ++ b) -> q `prefix_of` a \/ exists rest, q = a ++ rest.
Proof.
  revert q. induction a as [|x a IH]; intros q Hq; [right; by exists q|].
  destruct q as [|y q]; [left; by exists (x :: a)|].
  simpl in Hq. pose proof (prefix_cons_inv_1 _ _ _ _ Hq) as ->.
  apply prefix_cons_inv_2, IH in Hq as [Hq|[rest ->]].
  - left. by apply prefix_cons.
  - right. by exists rest.
Qed.

(** A run that returns has removed nothing, and has left every entry
    outside the unassigned part of the output as it was: the input files
    are copied, never moved or rewritten. *)
Theorem run_keeps_existing_entries (input_dir : path) (output_dir : option path)
    (verbose : bool) (fs fs' : filesys) (result q : path) (n : node) :
  let out := default (default_output input_dir) output_dir in
  organize_crp_assets input_dir output_dir verbose fs = Ok result fs' ->
  Fs.find fs q = Some n ->
  is_Some (Fs.find fs' q)
  /\ ((forall rest, q <> unassigned_of out ++ rest) -> Fs.find fs' q = Some n).
Proof.
  intros out Hrun Hq.
  destruct (run_phases _ _ _ _ _ _ Hrun)
    as (all_files & fs1 & ix & header & hx & fs2 & assigned
        & Hd & Hix & _ & _ & Hloop & _ & Hsweep & _).
  fold out in Hd, Hloop, Hsweep.
  destruct (ensures_ok _ _ _ _ _ Hd (discover_files_spec input_dir out fs))
    as (Hg1 & _).
  pose proof (ensures_ok _ _ _ _ _ Hloop
                (instance_loop_grows all_files ix hx (instances_of out) fs1
                   (build_file_index_within _ _ Hix))) as Hg2.
  pose proof (ensures_ok _ _ _ _ _ Hsweep
                (sweep_changes_unassigned out assigned all_files fs2)) as Hch.
  simpl in Hg2, Hch.
  assert (H2 : Fs.find fs2 q = Some n).
  { by apply (grows_by_keeps _ _ _ _ _ Hg2), (grows_by_keeps _ _ _ _ _ Hg1). }
  destruct (Hch q) as [E|(n' & Hn' & rest & Hrest)].
  - rewrite E, H2. by split.
  - rewrite Hn'. split; [done|]. intros Hout. by destruct (Hout rest).
Qed.

Lemma run_keeps_existing_entries_witness :
  Fs.find (state_of (Scenario.run Scenario.end_to_end))
    (Scenario.input_dir ++ ["entry_0_x.obj"]) = Some (File (Blob "o mesh")).
Proof.
  apply (run_keeps_existing_entries Scenario.input_dir (Some Scenario.output_dir)
           false Scenario.end_to_end _ Scenario.output_dir).
  - vm_compute. reflexivity.
  - reflexivity.
  - intros rest H. vm_compute in H. discriminate H.
Defined.

(** A run that returns has written only inside the output directory:
    every new entry lies in it, or is a directory on the way to it. *)
Theorem run_writes_inside_output (input_dir : path) (output_dir : option path)
    (verbose : bool) (fs fs' : filesys) (result q : path) (n : node) :
  let out := default (default_output input_dir) output_dir in
  organize_crp_assets input_dir output_dir verbose fs = Ok result fs' ->
  Fs.find fs q = None ->
  Fs.find fs' q = Some n ->
  (n = Dir /\ q `prefix_of` out) \/ (exists rest, q = out ++ rest).
Proof.
  intros out Hrun Hq Hq'.
  destruct (run_phases _ _ _ _ _ _ Hrun)
    as (all_files & fs1 & ix & header & hx & fs2 & assigned
        & Hd & Hix & _ & _ & Hloop & _ & Hsweep & _).
  fold out in Hd, Hloop, Hsweep.
  destruct (ensures_ok _ _ _ _ _ Hd (discover_files_spec input_dir out fs))
    as (Hg1 & _).
  pose proof (ensures_ok _ _ _ _ _ Hloop
                (instance_loop_grows all_files ix hx (instances_of out) fs1
                   (build_file_index_within _ _ Hix))) as Hg2.
  pose proof (ensures_ok _ _ _ _ _ Hsweep
                (sweep_changes_unassigned out assigned all_files fs2)) as Hch.
  simpl in Hg2, Hch.
  destruct (Hch q) as [E|(n' & Hn' & rest & ->)].
  2:{ right. exists ("unassigned" :: rest). unfold unassigned_of.
      by rewrite <- app_assoc. }
  rewrite E in Hq'.
  destruct (Hg2 q) as [E2|(_ & n2 & Hn2 & Hentry)].
  - rewrite E2 in Hq'.
    destruct (Hg1 q) as [E1|(_ & n1 & Hn1 & -> & x & y & Hpre)]; [congruence|].
    assert (n = Dir) as -> by congruence.
    apply prefix_of_app_cases in Hpre as [Hpre|Hrest]; [by left | by right].
  - assert (n2 = n) as -> by congruence.
    destruct Hentry as [(-> & i & Hpre)|(src & i & -> & _)].
    + unfold instances_of in Hpre. rewrite <- app_assoc in Hpre.
      apply prefix_of_app_cases in Hpre as [Hpre|Hrest]; [by left | by right].
    + right. unfold instances_of. rewrite <- app_assoc. eauto.
Qed.

Lemma run_writes_inside_output_witness :
  (File (Scenario.header ["A1"; "B2"]) = Dir
   /\ Scenario.bucket_path other "header.json" `prefix_of` Scenario.output_dir)
  \/ (exists rest, Scenario.bucket_path other "header.json"
                   = Scenario.output_dir ++ rest).
Proof.
  apply (run_writes_inside_output Scenario.input_dir (Some Scenario.output_dir)
           false Scenario.end_to_end (state_of (Scenario.run Scenario.end_to_end))
           Scenario.output_dir).
  - vm_compute. reflexivity.
  - reflexivity.
  - reflexivity.
Defined.

(** ** The assigned files *)

(** Collecting the assigned files only reads the file system, and the
    set it returns holds exactly the paths of the input directory whose
    name is listed in one of the instance directories 0 to n-1. *)
Theorem assigned_files_are_instance_entries (input_dir instances_dir : path)
    (n : nat) (fs fs' : filesys) (assigned : gset path) :
  collect_assigned input_dir instances_dir n fs = Ok assigned fs' ->
  fs' = fs
  /\ forall f, f ∈ assigned <->
       exists i name,
         (i < n)%nat /\ f = input_dir ++ [name]
         /\ inside fs (instances_dir ++ [instance_name i]) name.
Proof.
  intros H.
  exact (ensures_ok _ _ _ _ _ H (collect_assigned_spec input_dir instances_dir n fs)).
Qed.

Lemma assigned_files_are_instance_entries_witness :
  Scenario.first_run = Scenario.first_run
  /\ forall f, f ∈ Scenario.assigned_again <->
       exists i name,
         (i < 1)%nat /\ f = Scenario.input_dir ++ [name]
         /\ inside Scenario.first_run
              (instances_of Scenario.output_dir ++ [instance_name i]) name.
Proof.
  apply (assigned_files_are_instance_entries Scenario.input_dir
           (instances_of Scenario.output_dir) 1 Scenario.first_run).
  unfold Scenario.assigned_again.
  pose proof (collect_assigned_spec Scenario.input_dir
                (instances_of Scenario.output_dir) 1 Scenario.first_run) as Hs.
  assert (Hr : raised (collect_assigned Scenario.input_dir
                         (instances_of Scenario.output_dir) 1 Scenario.first_run)
               = None) by (vm_compute; reflexivity).
  unfold ensures in Hs.
  destruct (collect_assigned Scenario.input_dir (instances_of Scenario.output_dir) 1
              Scenario.first_run) as [a fsa|e fsa]; [|discriminate Hr].
  destruct Hs as [-> _]. reflexivity.
Defined.

(** ** The two indexes *)

Lemma fold_res_snoc {A S} (f : S -> A -> res S) (s : S) (l : list A) (x : A) :
  fold_res f s (l ++ [x]) = fold_res f s l ≫= fun s' => f s' x.
Proof.
  revert s. induction l as [|y l IH]; intros s; simpl.
  - unfold_M. by destruct (f s x).
  - unfold_M. destruct (f s y) as [s'|]; [apply IH | done].
Qed.

(** The state of the loop over the assets after the assets [l], whose
    checksums are [checksums], with dictionary keys [keys]. *)
Lemma fold_add_asset_spec (l checksums : list json) (keys : list pykey) :
  Forall2 (fun asset c => Py.getitem asset "assetChecksum" = Val c) l checksums ->
  Forall2 (fun c k => Py.key_of c = Val k) checksums keys ->
  exists hx,
    fold_res add_asset ({| map_idx2hash := ∅; map_hash2idx := ∅ |}, 0%nat) l
      = Val (hx, List.length l)
    /\ (forall i, map_idx2hash hx !! i = checksums !! i)
    /\ (forall k i, map_hash2idx hx !! k = Some i -> keys !! i = Some k)
    /\ (forall k i, keys !! i = Some k ->
                    (forall j, (i < j)%nat -> keys !! j <> Some k) ->
                    map_hash2idx hx !! k = Some i).
Proof.
  revert checksums keys. induction l as [|asset l IH] using rev_ind;
    intros checksums keys Hc Hk.
  - apply Forall2_nil_inv_l in Hc as ->. apply Forall2_nil_inv_l in Hk as ->.
    eexists. split; [done|]. simpl.
    split; [|split]; intros; by rewrite ?lookup_empty in *.
  - apply Forall2_app_inv_l in Hc as (cs & cl & Hcs & Hcl & ->).
    apply Forall2_cons_inv_l in Hcl as (c & cl' & Hc & Hnil & ->).
    apply Forall2_nil_inv_l in Hnil as ->.
    apply Forall2_app_inv_l in Hk as (ks & kl & Hks & Hkl & ->).
    apply Forall2_cons_inv_l in Hkl as (k & kl' & Hk & Hnil & ->).
    apply Forall2_nil_inv_l in Hnil as ->.
    destruct (IH cs ks Hcs Hks) as (hx & Hfold & Hidx & Hsound & Hlast).
    pose proof (Forall2_length _ _ _ Hcs) as Hlen1.
    pose proof (Forall2_length _ _ _ Hks) as Hlen2.
    eexists. rewrite fold_res_snoc, Hfold. split.
    + unfold add_asset. unfold_M. rewrite Hc, Hk.
      rewrite length_app. simpl. by rewrite Nat.add_1_r.
    + simpl. repeat split.
      * intros i. rewrite lookup_insert.
        destruct (decide (List.length l = i)) as [<-|Hne].
        -- rewrite lookup_app_r, Hlen1; [|lia]. by rewrite Nat.sub_diag.
        -- rewrite Hidx. destruct (decide (i < List.length cs)%nat).
           ++ by rewrite lookup_app_l.
           ++ rewrite !lookup_ge_None_2; [done| |lia].
              rewrite length_app. simpl. lia.
      * intros k' i. rewrite lookup_insert.
        destruct (decide (k = k')) as [<-|Hne].
        -- intros [= <-]. rewrite lookup_app_r, Hlen1, Hlen2; [|lia].
           by rewrite Nat.sub_diag.
        -- intros Hi%Hsound. by rewrite lookup_app_l; [|by eapply lookup_lt_Some].
      * intros k' i Hi Hafter. rewrite lookup_insert.
        destruct (decide (i < List.length ks)%nat) as [Hlt|Hge].
        -- rewrite lookup_app_l in Hi by done.
           rewrite decide_False.
           ++ apply Hlast; [done|]. intros j Hj Hkj.
              apply (Hafter j Hj). rewrite lookup_app_l; [done|].
              by eapply lookup_lt_Some.
           ++ intros ->. apply (Hafter (List.length ks) Hlt).
              by rewrite lookup_app_r, Nat.sub_diag.
        -- rewrite lookup_app_r in Hi by lia.
           destruct (i - List.length ks)%nat as [|m] eqn:Em; [|done].
           injection Hi as ->. rewrite decide_True; [|done].
           f_equal. lia.
Qed.

Lemma build_hash_index_fold (kv : list (string * json)) (l : list json) :
  Py.assoc "assets" kv = Some (JArr l) ->
  build_hash_index (JObj kv)
  = fold_res add_asset ({| map_idx2hash := ∅; map_hash2idx := ∅ |}, 0%nat) l
    ≫= fun st => Val st.1.
Proof. intros H. unfold build_hash_index. simpl. by rewrite H. Qed.

(** The ordinals of the manifest are dense: when every asset has a
    hashable checksum, [map_idx2hash] maps the positions 0 to n-1 of the
    asset list to the checksums, in order, and nothing else. *)
Theorem manifest_ordinals_are_dense (kv : list (string * json))
    (l checksums : list json) (keys : list pykey) :
  Py.assoc "assets" kv = Some (JArr l) ->
  Forall2 (fun asset c => Py.getitem asset "assetChecksum" = Val c) l checksums ->
  Forall2 (fun c k => Py.key_of c = Val k) checksums keys ->
  exists hx,
    build_hash_index (JObj kv) = Val hx
    /\ forall i, map_idx2hash hx !! i = checksums !! i.
Proof.
  intros Hassets Hc Hk.
  destruct (fold_add_asset_spec l checksums keys Hc Hk) as (hx & Hfold & Hidx & _).
  exists hx. split; [|done].
  by rewrite (build_hash_index_fold _ _ Hassets), Hfold.
Qed.

Lemma manifest_ordinals_are_dense_witness :
  exists hx,
    build_hash_index (JObj [("assets", JArr (map Scenario.asset ["A1"; "B2"]))])
      = Val hx
    /\ forall i, map_idx2hash hx !! i = [JStr "A1"; JStr "B2"] !! i.
Proof.
  apply (manifest_ordinals_are_dense _ (map Scenario.asset ["A1"; "B2"])
           [JStr "A1"; JStr "B2"] [KStr "A1"; KStr "B2"]).
  - reflexivity.
  - repeat constructor.
  - repeat constructor.
Defined.

(** The checksum index maps a checksum to the position of its last
    occurrence in the manifest, and holds nothing else: with checksums
    that occur once, looking up the checksum of position i gives i. *)
Theorem checksum_maps_to_last_ordinal (kv : list (string * json))
    (l checksums : list json) (keys : list pykey) :
  Py.assoc "assets" kv = Some (JArr l) ->
  Forall2 (fun asset c => Py.getitem asset "assetChecksum" = Val c) l checksums ->
  Forall2 (fun c k => Py.key_of c = Val k) checksums keys ->
  exists hx,
    build_hash_index (JObj kv) = Val hx
    /\ (forall k i, map_hash2idx hx !! k = Some i -> keys !! i = Some k)
    /\ (forall k i, keys !! i = Some k ->
                    (forall j, (i < j)%nat -> keys !! j <> Some k) ->
                    map_hash2idx hx !! k = Some i)
    /\ (NoDup keys -> forall k i, keys !! i = Some k -> map_hash2idx hx !! k = Some i).
Proof.
  intros Hassets Hc Hk.
  destruct (fold_add_asset_spec l checksums keys Hc Hk)
    as (hx & Hfold & _ & Hsound & Hlast).
  exists hx. split; [by rewrite (build_hash_index_fold _ _ Hassets), Hfold|].
  split; [done|]. split; [done|].
  intros Hnodup k i Hi. apply Hlast; [done|]. intros j Hj Hkj.
  pose proof (NoDup_lookup _ _ _ _ Hnodup Hi Hkj). lia.
Qed.

Lemma checksum_maps_to_last_ordinal_witness :
  exists hx,
    build_hash_index (JObj [("assets", JArr (map Scenario.asset ["A1"; "B2"; "A1"]))])
      = Val hx
    /\ map_hash2idx hx !! KStr "A1" = Some 2%nat.
Proof.
  destruct (checksum_maps_to_last_ordinal
              [("assets", JArr (map Scenario.asset ["A1"; "B2"; "A1"]))]
              (map Scenario.asset ["A1"; "B2"; "A1"])
              [JStr "A1"; JStr "B2"; JStr "A1"] [KStr "A1"; KStr "B2"; KStr "A1"])
    as (hx & Hbuild & _ & Hlast & _).
  - reflexivity.
  - repeat constructor.
  - repeat constructor.
  - exists hx. split; [done|]. apply Hlast; [reflexivity|].
    intros [|[|[|j]]] Hj; try lia; done.
Defined.

(** An asset without a checksum, or with a checksum that is a list or an
    object, makes the manifest unusable: building the checksum index
    raises. *)
Theorem asset_without_checksum_aborts_index (kv : list (string * json))
    (l : list json) (asset : json) :
  Py.assoc "assets" kv = Some (JArr l) ->
  In asset l ->
  (exists e, Py.getitem asset "assetChecksum" = Exc e)
  \/ (exists c, Py.getitem asset "assetChecksum" = Val c /\ Py.key_of c = Exc TypeError) ->
  exists e, build_hash_index (JObj kv) = Exc e.
Proof.
  intros Hassets Hin Hbad.
  destruct (fold_res_raises add_asset asset l
              ({| map_idx2hash := ∅; map_hash2idx := ∅ |}, 0%nat) Hin) as [e He].
  - intros [hx idx]. unfold add_asset. unfold_M.
    destruct Hbad as [[e ->]|(c & -> & ->)]; eauto.
  - exists e. by rewrite (build_hash_index_fold _ _ Hassets), He.
Qed.

Lemma asset_without_checksum_aborts_index_witness :
  exists e,
    build_hash_index (JObj [("assets", JArr [Scenario.asset "A1"; JObj []])]) = Exc e.
Proof.
  apply (asset_without_checksum_aborts_index _ [Scenario.asset "A1"; JObj []] (JObj [])).
  - reflexivity.
  - simpl. tauto.
  - left. by exists KeyError.
Defined.

Lemma snoc_decomposition {A} (l pre post : list A) (x f : A) :
  l ++ [x] = pre ++ f :: post ->
  (post = [] /\ f = x /\ pre = l)
  \/ (exists post', post = post' ++ [x] /\ l = pre ++ f :: post').
Proof.
  destruct post as [|p post _] using rev_ind.
  - intros H. apply app_inj_tail in H as [-> ->]. by left.
  - intros H. right. exists post.
    change (pre ++ f :: post ++ [p]) with (pre ++ (f :: post) ++ [p]) in H.
    rewrite app_assoc in H. apply app_inj_tail in H as [-> ->]. done.
Qed.

Lemma fold_add_entry_spec (l : list path) (ix : file_index) :
  fold_res add_entry {| map_idx2filename := ∅; map_filename2idx := ∅ |} l = Val ix ->
  (forall f idx,
      map_filename2idx ix !! f = Some idx <->
      f ∈ l /\ is_entry f = true /\ entry_index f = Val idx)
  /\ (forall idx f, map_idx2filename ix !! idx = Some f <-> last_with_index l idx f).
Proof.
  revert ix. induction l as [|x l IH] using rev_ind; intros ix.
  - intros [= <-]. simpl. split.
    + intros f idx. rewrite lookup_empty. split; [done|].
      by intros [?%elem_of_nil _].
    + intros idx f. rewrite lookup_empty. split; [done|].
      intros (pre & post & H & _). by destruct pre.
  - rewrite fold_res_snoc. unfold_M.
    destruct (fold_res add_entry _ l) as [ix0|] eqn:E0; [|done].
    destruct (IH ix0 eq_refl) as [Hf Hi]. unfold add_entry. fold (is_entry x).
    destruct (is_entry x) eqn:Ex; simpl.
    + destruct (entry_index x) as [idx_x|] eqn:Eidx; [|done].
      intros [= <-]. simpl. split.
      * intros f idx. rewrite lookup_insert, elem_of_app, list_elem_of_singleton.
        destruct (decide (x = f)) as [->|Hne].
        -- split; [intros [= <-]; auto|]. intros (_ & _ & H). congruence.
        -- rewrite Hf. split; [intros (? & ? & ?); auto|].
           intros ([?|?] & ? & ?); [done | congruence].
      * intros idx f. rewrite lookup_insert.
        destruct (decide (idx_x = idx)) as [->|Hne].
        -- split.
           ++ intros [= <-]. exists l, []. repeat split; try done.
              by intros g ?%elem_of_nil.
           ++ intros (pre & post & Hl & Hfe & Hfi & Hpost).
              apply snoc_decomposition in Hl as [(-> & -> & ->)|(post' & -> & ->)];
                [done|].
              destruct (Hpost x); [|done..]. apply elem_of_app. right. by left.
        -- rewrite Hi. split.
           ++ intros (pre & post & -> & Hfe & Hfi & Hpost).
              exists pre, (post ++ [x]). rewrite <- app_assoc. repeat split; try done.
              intros g [Hg|Hg%list_elem_of_singleton]%elem_of_app; [by apply Hpost|].
              subst g. intros _. congruence.
           ++ intros (pre & post & Hl & Hfe & Hfi & Hpost).
              apply snoc_decomposition in Hl as [(-> & -> & ->)|(post' & -> & ->)];
                [congruence|].
              exists pre, post'. repeat split; try done.
              intros g Hg. apply Hpost. apply elem_of_app. by left.
    + intros [= <-]. split.
      * intros f idx. rewrite Hf, elem_of_app, list_elem_of_singleton.
        split; [intros (? & ? & ?); auto|].
        intros ([?|Hx] & ? & ?); [done | subst; congruence].
      * intros idx f. rewrite Hi. split.
        -- intros (pre & post & -> & Hfe & Hfi & Hpost).
           exists pre, (post ++ [x]). rewrite <- app_assoc. repeat split; try done.
           intros g [Hg|Hg%list_elem_of_singleton]%elem_of_app; [by apply Hpost|].
           subst g. congruence.
        -- intros (pre & post & Hl & Hfe & Hfi & Hpost).
           apply snoc_decomposition in Hl as [(-> & -> & ->)|(post' & -> & ->)];
             [congruence|].
           exists pre, post'. repeat split; try done.
           intros g Hg. apply Hpost. apply elem_of_app. by left.
Qed.

(** The index of entry files is a round trip on the entry files: when
    building it returns, [map_filename2idx] holds exactly the listed
    files whose path holds [entry], each with the index parsed from its
    own path. *)
Theorem entry_files_keep_their_index (all_files : list path) (ix : file_index)
    (f : path) (idx : Z) :
  build_file_index all_files = Val ix ->
  map_filename2idx ix !! f = Some idx <->
  f ∈ all_files /\ is_entry f = true /\ entry_index f = Val idx.
Proof. intros H. by apply (fold_add_entry_spec all_files ix H). Qed.

Lemma entry_files_keep_their_index_witness :
  map_filename2idx (Scenario.index_of Scenario.end_to_end)
    !! (Scenario.input_dir ++ ["entry_1_x.json"]) = Some 1%Z.
Proof.
  apply (entry_files_keep_their_index (Scenario.listed Scenario.end_to_end)).
  - vm_compute. reflexivity.
  - split; [|split; reflexivity]. apply list_elem_of_In. vm_compute. tauto.
Defined.

(** When two entry files carry the same index, the one listed later
    takes the slot: [map_idx2filename] maps an index to the last listed
    entry file that carries it, and to nothing when there is none. *)
Theorem later_entry_file_takes_the_index (all_files : list path) (ix : file_index)
    (idx : Z) (f : path) :
  build_file_index all_files = Val ix ->
  map_idx2filename ix !! idx = Some f <-> last_with_index all_files idx f.
Proof. intros H. by apply (fold_add_entry_spec all_files ix H). Qed.

Lemma later_entry_file_takes_the_index_witness :
  map_idx2filename (Scenario.index_of Scenario.twin_entries) !! 3%Z
  = Some (Scenario.input_dir ++ ["entry_3_b.obj"]).
Proof.
  apply (later_entry_file_takes_the_index (Scenario.listed Scenario.twin_entries)).
  - vm_compute. reflexivity.
  - exists [Scenario.input_dir ++ ["entry_3_a.obj"]], [].
    repeat split; try reflexivity. by intros g ?%elem_of_nil.
Defined.

(** The join of the two indexes: a checksum whose last position in the
    manifest is i, looked up through [map_hash2idx] and then through
    [map_idx2filename], yields the last listed entry file with index
    i. *)
Theorem checksum_resolves_to_its_entry_file (all_files : list path)
    (ix : file_index) (kv : list (string * json)) (l checksums : list json)
    (keys : list pykey) (hx : hash_index) (i : nat) (c : json) (k : pykey)
    (f : path) :
  build_file_index all_files = Val ix ->
  Py.assoc "assets" kv = Some (JArr l) ->
  Forall2 (fun asset c => Py.getitem asset "assetChecksum" = Val c) l checksums ->
  Forall2 (fun c k => Py.key_of c = Val k) checksums keys ->
  build_hash_index (JObj kv) = Val hx ->
  Py.key_of c = Val k ->
  keys !! i = Some k ->
  (forall j, (i < j)%nat -> keys !! j <> Some k) ->
  last_with_index all_files (Z.of_nat i) f ->
  (hash2idx hx c ≫= idx2filename ix) = Val f.
Proof.
  intros Hix Hassets Hc Hk Hhx Hkey Hi Hlast Hf.
  destruct (fold_add_asset_spec l checksums keys Hc Hk) as (hx' & Hfold & _ & _ & Hl).
  rewrite (build_hash_index_fold _ _ Hassets), Hfold in Hhx. injection Hhx as <-.
  unfold hash2idx. unfold_M. rewrite Hkey, (Hl k i Hi Hlast).
  unfold idx2filename.
  by rewrite (proj2 (proj2 (fold_add_entry_spec all_files ix Hix) (Z.of_nat i) f) Hf).
Qed.

Lemma checksum_resolves_to_its_entry_file_witness :
  (hash2idx (Scenario.hashes_of ["A1"; "B2"]) (JStr "B2")
   ≫= idx2filename (Scenario.index_of Scenario.end_to_end))
  = Val (Scenario.input_dir ++ ["entry_1_x.json"]).
Proof.
  apply (checksum_resolves_to_its_entry_file (Scenario.listed Scenario.end_to_end)
           _ [("assets", JArr (map Scenario.asset ["A1"; "B2"]))]
           (map Scenario.asset ["A1"; "B2"]) [JStr "A1"; JStr "B2"]
           [KStr "A1"; KStr "B2"] _ 1 (JStr "B2") (KStr "B2")).
  - vm_compute. reflexivity.
  - reflexivity.
  - repeat constructor.
  - repeat constructor.
  - vm_compute. reflexivity.
  - reflexivity.
  - reflexivity.
  - intros [|[|j]] Hj; try lia; done.
  - exists [Scenario.input_dir ++ ["header.json"]; Scenario.input_dir ++ ["entry_0_x.obj"]],
      [Scenario.input_dir ++ ["entry_2_GameObject.json"]].
    repeat split; try reflexivity.
    intros g ->%list_elem_of_singleton _. vm_compute. discriminate.
Defined.

(** ** The bundles of a complete run *)

Lemma exists_grows P fs fs' (q : path) :
  grows_by P fs fs' -> Fs.exists_ fs q = true -> Fs.exists_ fs' q = true.
Proof.
  unfold Fs.exists_. intros Hg.
  destruct (Fs.node_at fs q) as [n|] eqn:E; [|done].
  by rewrite (grows_by_node_at _ _ _ _ _ Hg E).
Qed.

Lemma bundled_grows P ix hx fs fs' instance_dir gf go :
  grows_by P fs fs' ->
  bundled ix hx fs instance_dir gf go -> bundled ix hx fs' instance_dir gf go.
Proof.
  intros Hg (mh & th & mf & tf & H1 & H2 & H3 & H4 & Hdir & Hall).
  exists mh, th, mf, tf. repeat split; try done.
  - by apply (grows_by_node_at _ _ _ _ _ Hg).
  - eapply Forall_impl; [done|]. intros dst. by apply (exists_grows P fs fs').
Qed.

Lemma ensures_copy_anything (src dst : path) (fs : filesys) :
  ensures (copy_if_absent src dst) fs
    (fun _ fs' => grows_by anything fs fs' /\ Fs.exists_ fs' dst = true).
Proof.
  eapply ensures_mono; [apply ensures_copy_if_absent|].
  intros ? fs' [Hg He]. split; [|done]. by eapply grows_by_mono.
Qed.

(** A scene object that is read and does not raise leaves its bundle. *)
Lemma organize_instance_bundles (all_files : list path) (ix : file_index)
    (hx : hash_index) (instances_dir : path) (inst_id : nat) (gf : path)
    (fs : filesys) (go : json) :
  read_json fs gf = Some go ->
  ensures (organize_instance all_files ix hx instances_dir (inst_id, gf)) fs
    (fun _ fs' =>
       bundled ix hx fs' (instances_dir ++ [instance_name inst_id]) gf go).
Proof.
  intros Hread. unfold organize_instance. apply ensures_bind.
  apply (ensures_read (fun fs => read_json fs gf)). rewrite Hread.
  apply ensures_bind, ensures_lift. intros mesh_hash Hmesh.
  apply ensures_bind, ensures_lift. intros material_hash Hmat.
  apply ensures_bind, ensures_lift. intros mesh_idx Hmi.
  apply ensures_bind, ensures_lift. intros mesh_filename Hmf.
  apply ensures_bind, ensures_lift. intros material_idx Hti.
  apply ensures_bind, ensures_lift. intros material_filename Htf.
  apply ensures_bind.
  apply (ensures_read (fun fs => read_json fs material_filename)).
  apply ensures_bind, ensures_lift. intros texture_hashes _.
  apply ensures_bind.
  eapply ensures_mono; [apply ensures_makedirs|]. intros ? fs2 [_ Hdir].
  apply ensures_bind.
  eapply ensures_mono; [apply ensures_copy_anything|]. intros ? fs3 [Hg3 He3].
  apply ensures_bind.
  eapply ensures_mono; [apply ensures_copy_anything|]. intros ? fs4 [Hg4 He4].
  apply ensures_bind.
  eapply ensures_mono; [apply ensures_copy_anything|]. intros ? fs5 [Hg5 He5].
  eapply ensures_mono.
  - apply (ensures_for_each _ (fun fs' => grows_by anything fs5 fs'));
      [|apply grows_by_refl].
    intros texture_filename fs6 _ Hg6.
    eapply ensures_mono; [apply ensures_copy_anything|].
    intros ? fs7 [Hg7 _]. by eapply grows_by_trans.
  - intros ? fs' Hg. simpl in Hg.
    apply (bundled_grows anything ix hx fs5); [done|].
    exists mesh_hash, material_hash, mesh_filename, material_filename.
    repeat split; try done.
    + unfold_M. by rewrite Hmi.
    + unfold_M. by rewrite Hti.
    + apply (grows_by_node_at _ _ _ _ _ Hg5), (grows_by_node_at _ _ _ _ _ Hg4).
      by apply (grows_by_node_at _ _ _ _ _ Hg3).
    + unfold bundle_of. repeat constructor; [| |done].
      * by apply (exists_grows _ _ _ _ Hg5), (exists_grows _ _ _ _ Hg4).
      * by apply (exists_grows _ _ _ _ Hg5).
Qed.

Lemma read_json_grows P fs fs' (f : path) (v : json) :
  grows_by P fs fs' -> read_json fs f = Some v -> read_json fs' f = Some v.
Proof.
  intros Hg Hr. pose proof (read_json_is_file _ _ _ Hr) as Hn.
  unfold read_json in *. rewrite (grows_by_node_at _ _ _ _ _ Hg Hn).
  by rewrite Hn in Hr.
Qed.

(** The loop over the scene objects, when it returns, has left the
    bundle of every scene object that could be read. *)
Lemma instance_loop_bundles (all_files : list path) (ix : file_index)
    (hx : hash_index) (instances_dir : path) (fs1 : filesys)
    (l : list (nat * path)) :
  index_within ix all_files ->
  (forall x, x ∈ l -> x.2 ∈ all_files) ->
  ensures (for_each (organize_instance all_files ix hx instances_dir) l) fs1
    (fun _ fs2 =>
       forall i gf go, (i, gf) ∈ l -> read_json fs1 gf = Some go ->
         bundled ix hx fs2 (instances_dir ++ [instance_name i]) gf go).
Proof.
  intros Hix Hl. eapply ensures_mono.
  - apply (ensures_for_each_visited _
             (fun pre fs2 =>
                grows_by (instance_entry all_files instances_dir fs1) fs1 fs2
                /\ forall i gf go, (i, gf) ∈ pre -> read_json fs1 gf = Some go ->
                     bundled ix hx fs2 (instances_dir ++ [instance_name i]) gf go)).
    + intros pre [i gf] post fsk Hpre [Hg Hdone].
      assert (Hx : (i, gf) ∈ l).
      { rewrite Hpre. apply elem_of_app. right. by left. }
      pose proof (organize_instance_grows all_files ix hx instances_dir fs1 Hix
                    (i, gf) fs1 fsk (Hl _ Hx) (grows_by_refl _ _) Hg) as Hstep.
      unfold ensures in *.
      destruct (organize_instance all_files ix hx instances_dir (i, gf) fsk)
        as [[] fsn|] eqn:E; [|done].
      assert (Hkn : grows_by (instance_entry all_files instances_dir fs1) fsk fsn).
      { pose proof (organize_instance_grows all_files ix hx instances_dir fs1 Hix
                      (i, gf) fsk fsk (Hl _ Hx)
                      (instance_entry_anything _ _ _ _ _ Hg) (grows_by_refl _ _)) as H.
        unfold ensures in H. by rewrite E in H. }
      split; [done|]. intros j gf' go' Hin Hread.
      apply elem_of_app in Hin as [Hin|Hin%list_elem_of_singleton].
      * by apply (bundled_grows _ _ _ _ _ _ _ _ Hkn), Hdone.
      * injection Hin as -> ->.
        pose proof (organize_instance_bundles all_files ix hx instances_dir i gf fsk go'
                      (read_json_grows _ _ _ _ _ Hg Hread)) as Hb.
        unfold ensures in Hb. by rewrite E in Hb.
    + split; [apply grows_by_refl|]. by intros i gf go ?%elem_of_nil.
  - intros ? fs2 [_ H]. done.
Qed.

(** After a run that returns, every scene object that could be read has
    its instance directory, numbered by its position among the
    [GameObject.json] files, and the directory holds the scene object,
    its mesh and its material, as resolved through the two indexes. *)
Theorem complete_run_bundles_every_scene_object (input_dir : path)
    (output_dir : option path) (verbose : bool) (fs fs1 fs' : filesys)
    (result : path) (all_files : list path) (i : nat) (gf : path) (go : json) :
  let out := default (default_output input_dir) output_dir in
  organize_crp_assets input_dir output_dir verbose fs = Ok result fs' ->
  discover_files input_dir out fs = Ok all_files fs1 ->
  (i, gf) ∈ enumerate (gameobject_files_of all_files) ->
  read_json fs1 gf = Some go ->
  exists ix header hx,
    build_file_index all_files = Val ix
    /\ load_header all_files fs1 = Ok header fs1
    /\ build_hash_index header = Val hx
    /\ bundled ix hx fs' (instances_of out ++ [instance_name i]) gf go.
Proof.
  intros out Hrun Hd Hin Hread.
  destruct (run_phases _ _ _ _ _ _ Hrun)
    as (all_files' & fs1' & ix & header & hx & fs2 & assigned
        & Hd' & Hix & Hh & Hhx & Hloop & _ & Hsweep & _).
  fold out in Hd', Hloop, Hsweep. rewrite Hd in Hd'. injection Hd' as <- <-.
  exists ix, header, hx. repeat split; try done.
  pose proof (ensures_ok _ _ _ _ _ Hloop
                (instance_loop_bundles all_files ix hx (instances_of out) fs1 _
                   (build_file_index_within _ _ Hix)
                   (fun x Hx => gameobject_files_listed _ _ (enumerate_elem _ _ Hx))))
    as Hb.
  simpl in Hb. specialize (Hb i gf go Hin Hread).
  pose proof (ensures_ok _ _ _ _ _ Hsweep
                (sweep_changes_unassigned out assigned all_files fs2)) as Hch.
  simpl in Hch.
  assert (Hframe : forall rest,
             Fs.find fs' (instances_of out ++ rest) = Fs.find fs2 (instances_of out ++ rest)).
  { intros rest. apply (changes_frame _ _ _ _ Hch). intros n [r Hr].
    unfold instances_of, unassigned_of in Hr. rewrite <- !app_assoc in Hr.
    by apply app_inv_head in Hr. }
  assert (Hnode : forall x rest,
             Fs.node_at fs' (instances_of out ++ x :: rest)
             = Fs.node_at fs2 (instances_of out ++ x :: rest)).
  { intros x rest. rewrite !node_at_below. apply Hframe. }
  destruct Hb as (mh & th & mf & tf & H1 & H2 & H3 & H4 & Hdir & Hall).
  exists mh, th, mf, tf. repeat split; try done.
  - by rewrite Hnode.
  - unfold bundle_of in *. rewrite Forall_forall in Hall. apply Forall_forall.
    intros dst Hdst. specialize (Hall dst Hdst). unfold Fs.exists_ in *.
    assert (exists name, dst = instances_of out ++ [instance_name i; name])
      as [name ->]; [|by rewrite Hnode].
    rewrite <- !app_assoc in Hdst. apply list_elem_of_In in Hdst. simpl in Hdst.
    destruct Hdst as [<-|[<-|[<-|[]]]]; eauto.
Qed.

Lemma complete_run_bundles_every_scene_object_witness :
  exists ix header hx,
    build_file_index (Scenario.listed Scenario.end_to_end) = Val ix
    /\ load_header (Scenario.listed Scenario.end_to_end)
         (state_of (discover_files Scenario.input_dir Scenario.output_dir
                      Scenario.end_to_end))
       = Ok header
           (state_of (discover_files Scenario.input_dir Scenario.output_dir
                        Scenario.end_to_end))
    /\ build_hash_index header = Val hx
    /\ bundled ix hx Scenario.first_run
         (instances_of Scenario.output_dir ++ [instance_name 0])
         (Scenario.input_dir ++ ["entry_2_GameObject.json"])
         (JObj [("1_UnityEngine.MeshFilter", JStr "A1");
                ("2_UnityEngine.MeshRenderer", JArr [JStr "B2"])]).
Proof.
  apply (complete_run_bundles_every_scene_object Scenario.input_dir
           (Some Scenario.output_dir) false Scenario.end_to_end
           (state_of (discover_files Scenario.input_dir Scenario.output_dir
                        Scenario.end_to_end))
           Scenario.first_run Scenario.output_dir
           (Scenario.listed Scenario.end_to_end) 0
           (Scenario.input_dir ++ ["entry_2_GameObject.json"])).
  - vm_compute. reflexivity.
  - vm_compute. reflexivity.
  - apply list_elem_of_In. vm_compute. tauto.
  - vm_compute. reflexivity.
Defined.
